(** * LLM Council: the three-stage LangGraph workflow of [backend/graph.py]

    The development embeds [stage1_node], [stage2_node], [stage3_node] and the
    graph built by [create_council_graph], together with the constants of
    [backend/config.py].  Model invocations ([backend/openrouter.py]) are
    events of a small interaction monad that are answered by an arbitrary
    invoker; the two helpers of [backend/utils.py] are parameters of the
    workflow, and a model of them written from the specification is given in
    [Module Utils]. *)

From Stdlib Require Import Ascii String.
From Stdlib Require Import List NArith ZArith QArith Lia Bool Permutation.
Import ListNotations.

Set Implicit Arguments.
Close Scope Q_scope.
Open Scope list_scope.

(** ** Python strings

    A Python [str] is a sequence of Unicode code points. *)

Definition char := N.
Definition str := list char.

(** A source literal (all literals of the program are ASCII). *)
Definition lit (s : string) : str :=
  map N_of_ascii (list_ascii_of_string s).
Arguments lit s%_string.

Definition str_eq_dec : forall a b : str, {a = b} + {a <> b} :=
  list_eq_dec N.eq_dec.

Definition nl : str := [10%N].
Definition dquote : str := [34%N].

(** [chr(i)]: the one-character string of code point [i]; Python raises
    [ValueError] outside [range(0x110000)], rendered here as [None]. *)
Definition chr (i : nat) : option str :=
  if (N.of_nat i <? 1114112)%N then Some [N.of_nat i] else None.

(** [sep.join(parts)]. *)
Fixpoint join (sep : str) (parts : list str) : str :=
  match parts with
  | [] => []
  | [p] => p
  | p :: rest => p ++ sep ++ join sep rest
  end.

(** [s.startswith(p)]. *)
Fixpoint starts_with (p s : str) : bool :=
  match p, s with
  | [], _ => true
  | _ :: _, [] => false
  | a :: p', b :: s' => (a =? b)%N && starts_with p' s'
  end.

(** [p in s]: [p] occurs in [s]. *)
Definition infix (p s : str) : Prop :=
  exists pre post, s = pre ++ p ++ post.

(** ** Python dictionaries

    A [dict] keeps its keys unique and iterates in insertion order; assigning
    to a key that is present replaces the value where the key stands. *)

Definition dict (V : Type) := list (str * V).

Fixpoint dict_get {V} (k : str) (d : dict V) : option V :=
  match d with
  | [] => None
  | (k', v) :: d' => if str_eq_dec k k' then Some v else dict_get k d'
  end.

Fixpoint dict_set {V} (k : str) (v : V) (d : dict V) : dict V :=
  match d with
  | [] => [(k, v)]
  | (k', v') :: d' =>
      if str_eq_dec k k' then (k', v) :: d' else (k', v') :: dict_set k v d'
  end.

(** A dict comprehension / display: the pairs are assigned left to right. *)
Definition dict_of {V} (kvs : list (str * V)) : dict V :=
  fold_left (fun d kv => dict_set (fst kv) (snd kv) d) kvs [].

Definition keys {V} (d : dict V) : list str := map fst d.
Definition values {V} (d : dict V) : list V := map snd d.

(** [d.get(k, default)]. *)
Definition get_default (d : dict str) (k : str) (default : str) : str :=
  match dict_get k d with
  | Some v => v
  | None => default
  end.

(** ** Data model *)

Record Message := { role : str; content : str }.

(** The payload of a successful invocation: a dict of text fields. *)
Definition Response := dict str.

Record StageOneResult := { s1_model : str; s1_response : str }.

Record StageTwoResult := {
  s2_model : str;
  s2_ranking : str;
  s2_parsed_ranking : list str
}.

Record StageThreeResult := { s3_model : str; s3_response : str }.

Definition AggregateRanking := list (str * Q).

(** The values stored in the free-form [metadata] dict. *)
Inductive MetaValue :=
| MetaText (s : str)
| MetaLabels (m : dict str)
| MetaAggregate (a : AggregateRanking).

Record CouncilState := {
  user_query : str;
  stage1_results : list StageOneResult;
  stage2_results : list StageTwoResult;
  label_to_model : dict str;
  stage3_result : StageThreeResult;
  metadata : dict MetaValue
}.

(** What a node returns: the keys of the state it assigns. *)
Record Update := {
  upd_stage1_results : option (list StageOneResult);
  upd_stage2_results : option (list StageTwoResult);
  upd_label_to_model : option (dict str);
  upd_stage3_result : option StageThreeResult;
  upd_metadata : option (dict MetaValue)
}.

Definition or_keep {A} (new : option A) (old : A) : A :=
  match new with Some a => a | None => old end.

(** The graph merges a node's update into the state key by key. *)
Definition merge (state : CouncilState) (u : Update) : CouncilState :=
  {| user_query := user_query state;
     stage1_results := or_keep (upd_stage1_results u) (stage1_results state);
     stage2_results := or_keep (upd_stage2_results u) (stage2_results state);
     label_to_model := or_keep (upd_label_to_model u) (label_to_model state);
     stage3_result := or_keep (upd_stage3_result u) (stage3_result state);
     metadata := or_keep (upd_metadata u) (metadata state) |}.

(** ** Configuration ([backend/config.py]) *)

Definition COUNCIL_MODELS : list str :=
  [ lit "arcee-ai/trinity-mini:free";
    lit "amazon/nova-2-lite-v1:free";
    lit "allenai/olmo-3-32b-think:free";
    lit "tngtech/tng-r1t-chimera:free" ].

Definition CHAIRMAN_MODEL : str := lit "arcee-ai/trinity-mini:free".

(** ** Model invocation as an effect

    A node is a program that may ask the dispatcher for a batch of answers
    ([query_models_parallel]), ask one model ([query_model]), raise, or
    return.  [None] is the failure signal of an invocation. *)

Inductive exn := ValueError.

Inductive Prog (A : Type) : Type :=
| Ret (a : A)
| Raise (e : exn)
| QueryModelsParallel (models : list str) (messages : list Message)
    (k : dict (option Response) -> Prog A)
| QueryModel (model : str) (messages : list Message)
    (k : option Response -> Prog A).
Arguments Raise {A} e.

Fixpoint bind {A B} (p : Prog A) (f : A -> Prog B) : Prog B :=
  match p with
  | Ret a => f a
  | Raise e => Raise e
  | QueryModelsParallel ms msgs k =>
      QueryModelsParallel ms msgs (fun r => bind (k r) f)
  | QueryModel m msgs k => QueryModel m msgs (fun r => bind (k r) f)
  end.

Definition query_models_parallel (models : list str) (messages : list Message)
  : Prog (dict (option Response)) :=
  QueryModelsParallel models messages (fun r => Ret r).

Definition query_model (model : str) (messages : list Message)
  : Prog (option Response) :=
  QueryModel model messages (fun r => Ret r).

Declare Scope prog_scope.
Delimit Scope prog_scope with prog.
Notation "x <- c1 ;; c2" := (bind c1 (fun x => c2))
  (at level 61, c1 at next level, right associativity) : prog_scope.
Open Scope prog_scope.

(** The invocations a run has made, in order. *)
Inductive Call :=
| CallParallel (models : list str) (messages : list Message)
| CallSingle (model : str) (messages : list Message).

Inductive outcome (A : Type) :=
| Returned (a : A)
| Raised (e : exn).
Arguments Raised {A} e.

(** The environment: what the [n]-th invocation of a run answers. *)
Record Invoker := {
  answer_parallel :
    nat -> list str -> list Message -> dict (option Response);
  answer_single : nat -> str -> list Message -> option Response
}.

Fixpoint run_from {A} (inv : Invoker) (n : nat) (p : Prog A)
  : outcome A * list Call :=
  match p with
  | Ret a => (Returned a, [])
  | Raise e => (Raised e, [])
  | QueryModelsParallel ms msgs k =>
      let (o, calls) := run_from inv (S n) (k (answer_parallel inv n ms msgs)) in
      (o, CallParallel ms msgs :: calls)
  | QueryModel m msgs k =>
      let (o, calls) := run_from inv (S n) (k (answer_single inv n m msgs)) in
      (o, CallSingle m msgs :: calls)
  end.

Definition run {A} (inv : Invoker) (p : Prog A) : outcome A * list Call :=
  run_from inv 0 p.

(** [[f(x) for x in xs]] where [f] may raise: the first failure aborts. *)
Fixpoint traverse {A B} (f : A -> option B) (xs : list A) : option (list B) :=
  match xs with
  | [] => Some []
  | x :: xs' =>
      match f x with
      | None => None
      | Some y =>
          match traverse f xs' with
          | None => None
          | Some ys => Some (y :: ys)
          end
      end
  end.

(** ** The workflow ([backend/graph.py]) *)

Section Graph.

(** The two helpers imported from [backend/utils.py]. *)
Variable parse_ranking_from_text : str -> list str.
Variable calculate_aggregate_rankings :
  list StageTwoResult -> dict str -> AggregateRanking.

(** Stage 1: collect individual responses. *)
Definition collect_stage1 (responses : dict (option Response))
  : list StageOneResult :=
  fold_left
    (fun acc (item : str * option Response) =>
       let (model, response) := item in
       match response with
       | Some response =>
           acc ++ [ {| s1_model := model;
                       s1_response := get_default response (lit "content") [] |} ]
       | None => acc
       end)
    responses [].

Definition stage1_node (state : CouncilState) : Prog Update :=
  let user_query := user_query state in
  let messages := [ {| role := lit "user"; content := user_query |} ] in
  responses <- query_models_parallel COUNCIL_MODELS messages ;;
  let stage1_results := collect_stage1 responses in
  Ret {| upd_stage1_results := Some stage1_results;
         upd_stage2_results := None; upd_label_to_model := None;
         upd_stage3_result := None; upd_metadata := None |}.

(** Stage 2: rank responses. *)
Definition make_labels (n : nat) : option (list str) :=
  traverse (fun i => chr (65 + i)) (seq 0 n).

Definition make_label_to_model (labels : list str)
  (stage1_results : list StageOneResult) : dict str :=
  dict_of
    (map (fun lr : str * StageOneResult =>
            let (label, result) := lr in
            (lit "Response " ++ label, s1_model result))
         (combine labels stage1_results)).

Definition make_responses_text (labels : list str)
  (stage1_results : list StageOneResult) : str :=
  join (nl ++ nl)
    (map (fun lr : str * StageOneResult =>
            let (label, result) := lr in
            lit "Response " ++ label ++ lit ":" ++ nl ++ s1_response result)
         (combine labels stage1_results)).

Definition make_ranking_prompt (user_query responses_text : str) : str :=
  lit "You are evaluating different responses to the following question:" ++ nl
  ++ nl
  ++ lit "Question: " ++ user_query ++ nl
  ++ nl
  ++ lit "Here are the responses from different models (anonymized):" ++ nl
  ++ nl
  ++ responses_text ++ nl
  ++ nl
  ++ lit "Your task:" ++ nl
  ++ lit "1. First, evaluate each response individually." ++ nl
  ++ lit "2. Then, at the very end, provide a final ranking." ++ nl
  ++ nl
  ++ lit "IMPORTANT: Your final ranking MUST be formatted EXACTLY as follows:" ++ nl
  ++ lit "- Start with " ++ dquote ++ lit "FINAL RANKING:" ++ dquote ++ nl
  ++ lit "- List responses from best to worst (e.g., " ++ dquote
  ++ lit "1. Response A" ++ dquote ++ lit ")" ++ nl
  ++ nl
  ++ lit "FINAL RANKING:" ++ nl
  ++ lit "1. Response [Label]" ++ nl
  ++ lit "2. Response [Label]" ++ nl
  ++ lit "..." ++ nl.

Definition collect_stage2 (responses : dict (option Response))
  : list StageTwoResult :=
  fold_left
    (fun acc (item : str * option Response) =>
       let (model, response) := item in
       match response with
       | Some response =>
           let full_text := get_default response (lit "content") [] in
           let parsed := parse_ranking_from_text full_text in
           acc ++ [ {| s2_model := model;
                       s2_ranking := full_text;
                       s2_parsed_ranking := parsed |} ]
       | None => acc
       end)
    responses [].

Definition stage2_node (state : CouncilState) : Prog Update :=
  let user_query := user_query state in
  let stage1_results := stage1_results state in
  match stage1_results with
  | [] =>
      Ret {| upd_stage1_results := None;
             upd_stage2_results := Some [];
             upd_label_to_model := Some [];
             upd_stage3_result := None;
             upd_metadata :=
               Some (dict_of [ (lit "error", MetaText (lit "No stage 1 results")) ]) |}
  | _ :: _ =>
      match make_labels (length stage1_results) with
      | None => Raise ValueError
      | Some labels =>
          let label_to_model := make_label_to_model labels stage1_results in
          let responses_text := make_responses_text labels stage1_results in
          let ranking_prompt := make_ranking_prompt user_query responses_text in
          let messages := [ {| role := lit "user"; content := ranking_prompt |} ] in
          responses <- query_models_parallel COUNCIL_MODELS messages ;;
          let stage2_results := collect_stage2 responses in
          let aggregate_rankings :=
            calculate_aggregate_rankings stage2_results label_to_model in
          let metadata :=
            dict_of [ (lit "label_to_model", MetaLabels label_to_model);
                      (lit "aggregate_rankings", MetaAggregate aggregate_rankings) ] in
          Ret {| upd_stage1_results := None;
                 upd_stage2_results := Some stage2_results;
                 upd_label_to_model := Some label_to_model;
                 upd_stage3_result := None;
                 upd_metadata := Some metadata |}
      end
  end.

(** Stage 3: synthesize the final answer. *)
Definition make_stage1_text (stage1_results : list StageOneResult) : str :=
  join (nl ++ nl)
    (map (fun result =>
            lit "Model: " ++ s1_model result ++ nl
            ++ lit "Response: " ++ s1_response result)
         stage1_results).

Definition make_stage2_text (stage2_results : list StageTwoResult) : str :=
  join (nl ++ nl)
    (map (fun result =>
            lit "Model: " ++ s2_model result ++ nl
            ++ lit "Ranking: " ++ s2_ranking result)
         stage2_results).

Definition make_chairman_prompt (user_query stage1_text stage2_text : str)
  : str :=
  lit "You are the Chairman of an LLM Council." ++ nl
  ++ nl
  ++ lit "Original Question: " ++ user_query ++ nl
  ++ nl
  ++ lit "STAGE 1 - Individual Responses:" ++ nl
  ++ stage1_text ++ nl
  ++ nl
  ++ lit "STAGE 2 - Peer Rankings:" ++ nl
  ++ stage2_text ++ nl
  ++ nl
  ++ lit "Synthesize all information into a single, comprehensive answer:".

Definition stage3_update (r : StageThreeResult) : Update :=
  {| upd_stage1_results := None; upd_stage2_results := None;
     upd_label_to_model := None; upd_stage3_result := Some r;
     upd_metadata := None |}.

Definition stage3_node (state : CouncilState) : Prog Update :=
  let user_query := user_query state in
  let stage1_results := stage1_results state in
  let stage2_results := stage2_results state in
  match stage1_results with
  | [] =>
      Ret (stage3_update
             {| s3_model := lit "error";
                s3_response := lit "No responses to synthesize." |})
  | _ :: _ =>
      let stage1_text := make_stage1_text stage1_results in
      let stage2_text := make_stage2_text stage2_results in
      let chairman_prompt :=
        make_chairman_prompt user_query stage1_text stage2_text in
      let messages := [ {| role := lit "user"; content := chairman_prompt |} ] in
      response <- query_model CHAIRMAN_MODEL messages ;;
      match response with
      | None =>
          Ret (stage3_update
                 {| s3_model := CHAIRMAN_MODEL;
                    s3_response := lit "Error: Synthesis failed." |})
      | Some response =>
          Ret (stage3_update
                 {| s3_model := CHAIRMAN_MODEL;
                    s3_response := get_default response (lit "content") [] |})
      end
  end.

(** The compiled graph: stage1 -> stage2 -> stage3 -> END, each node's
    update merged into the state before the next node runs. *)
Definition create_council_graph (state : CouncilState) : Prog CouncilState :=
  u1 <- stage1_node state ;;
  let state1 := merge state u1 in
  u2 <- stage2_node state1 ;;
  let state2 := merge state1 u2 in
  u3 <- stage3_node state2 ;;
  Ret (merge state2 u3).

End Graph.

(** ** The helpers of [backend/utils.py] *)

Module Utils.

(** *** Ranking parser *)

Definition MARKER : str := lit "FINAL RANKING:".

(** The text that follows the first occurrence of [needle], if there is one. *)
Fixpoint after_first (needle text : str) : option str :=
  if starts_with needle text then Some (skipn (length needle) text)
  else
    match text with
    | [] => None
    | _ :: text' => after_first needle text'
    end.

Fixpoint split_lines (text : str) : list str :=
  match text with
  | [] => [[]]
  | c :: text' =>
      if (c =? 10)%N then [] :: split_lines text'
      else
        match split_lines text' with
        | [] => [[c]]
        | line :: lines => (c :: line) :: lines
        end
  end.

Definition is_digit (c : char) : bool := ((48 <=? c) && (c <=? 57))%N.
Definition is_upper (c : char) : bool := ((65 <=? c) && (c <=? 90))%N.

Fixpoint drop_digits (s : str) : str :=
  match s with
  | [] => []
  | c :: s' => if is_digit c then drop_digits s' else s
  end.

(** A line of the form "<ordinal>. Response <Letter>" yields its letter. *)
Definition match_line (line : str) : option str :=
  match line with
  | [] => None
  | d :: rest =>
      if is_digit d then
        let rest := drop_digits rest in
        if starts_with (lit ". Response ") rest then
          match skipn (length (lit ". Response ")) rest with
          | [c] => if is_upper c then Some [c] else None
          | _ => None
          end
        else None
      else None
  end.

Fixpoint ranked_letters (lines : list str) : list str :=
  match lines with
  | [] => []
  | line :: lines' =>
      match match_line line with
      | Some letter => letter :: ranked_letters lines'
      | None => ranked_letters lines'
      end
  end.

(** Modelled from the spec: [parse_ranking_from_text] of [backend/utils.py],
    which is not among the sources.  It locates the first, case-sensitive
    occurrence of the marker "FINAL RANKING:"; without one it yields the empty
    sequence; otherwise it yields, in document order, the letters of the lines
    after the marker that have the form "<ordinal>. Response <Letter>", and
    ignores every other line.  Letters are not validated. *)
Definition parse_ranking_from_text (text : str) : list str :=
  match after_first MARKER text with
  | None => []
  | Some section => ranked_letters (split_lines section)
  end.

(** *** Rank aggregator *)

Section Aggregator.

(** The scoring policy, which the specification leaves to the implementer:
    the score of a 1-based position, the score (if any) a ranking gives to a
    label it does not mention, knowing the number of labels and that ranking,
    and whether the scores of a label are averaged or summed. *)
Variable transform : nat -> Q.
Variable penalty : nat -> list str -> option Q.
Variable average : bool.

Fixpoint position (label : str) (ranking : list str) : option nat :=
  match ranking with
  | [] => None
  | l :: ranking' =>
      if str_eq_dec label l then Some 1
      else option_map S (position label ranking')
  end.

(** A parsed ranking holds letters; the label map is keyed by
    "Response <letter>". *)
Definition formatted (ranking : list str) : list str :=
  map (fun letter => lit "Response " ++ letter) ranking.

Definition score_in (n : nat) (ranking : list str) (label : str) : option Q :=
  match position label (formatted ranking) with
  | Some p => Some (transform p)
  | None => penalty n ranking
  end.

(** An unparseable answer has an empty ranking and takes no part. *)
Definition parseable (r : StageTwoResult) : bool :=
  match s2_parsed_ranking r with
  | [] => false
  | _ :: _ => true
  end.

Definition label_scores (stage2_results : list StageTwoResult) (n : nat)
  (label : str) : list Q :=
  flat_map
    (fun r =>
       match score_in n (s2_parsed_ranking r) label with
       | Some q => [q]
       | None => []
       end)
    (filter parseable stage2_results).

Definition total (scores : list Q) : Q := fold_right Qplus 0%Q scores.

Definition aggregate_score (scores : list Q) : Q :=
  if average then (total scores / inject_Z (Z.of_nat (length scores)))%Q
  else total scores.

(** A label that received no score has no entry. *)
Definition entry (model : str) (scores : list Q) : list (str * Q) :=
  match scores with
  | [] => []
  | _ :: _ => [(model, aggregate_score scores)]
  end.

(** Ascending by score; an entry goes before the later entries it ties with. *)
Fixpoint insert_entry (e : str * Q) (sorted : list (str * Q))
  : list (str * Q) :=
  match sorted with
  | [] => [e]
  | e' :: sorted' =>
      if Qle_bool (snd e) (snd e') then e :: sorted
      else e' :: insert_entry e sorted'
  end.

Definition sort_entries (entries : list (str * Q)) : list (str * Q) :=
  fold_right insert_entry [] entries.

(** Modelled from the spec: [calculate_aggregate_rankings] of
    [backend/utils.py], which is not among the sources.  Every parseable
    ranking scores each label by its position (or the penalty of the
    policy); the scores of a label are summed or averaged; labels are mapped
    back to models through the label map; the entries are sorted by score
    ascending, ties in the order of the label map; with no parseable ranking
    the result is empty. *)
Definition calculate_aggregate_rankings
  (stage2_results : list StageTwoResult) (label_to_model : dict str)
  : AggregateRanking :=
  let n := length label_to_model in
  sort_entries
    (flat_map
       (fun lm : str * str =>
          let (label, model) := lm in
          entry model (label_scores stage2_results n label))
       label_to_model).

End Aggregator.

(** The policy used when none is stated: the score is the position, a
    ranking says nothing about the labels it omits, scores are averaged. *)
Definition position_score (p : nat) : Q := inject_Z (Z.of_nat p).
Definition no_penalty (n : nat) (ranking : list str) : option Q := None.

Definition average_rank :=
  calculate_aggregate_rankings position_score no_penalty true.

End Utils.

(** * Vocabulary of the statements *)

(** ** Dispatch results *)

(** The successful entries of a dispatch, in iteration order. *)
Definition succeeded (responses : dict (option Response))
  : list (str * Response) :=
  flat_map
    (fun item : str * option Response =>
       match snd item with
       | Some r => [(fst item, r)]
       | None => []
       end)
    responses.

Definition text_of (r : Response) : str := get_default r (lit "content") [].

Definition to_stage1 (mr : str * Response) : StageOneResult :=
  {| s1_model := fst mr; s1_response := text_of (snd mr) |}.

Section StageTwoVocabulary.

Variable parse : str -> list str.
Variable aggregate : list StageTwoResult -> dict str -> AggregateRanking.

Definition to_stage2 (mr : str * Response) : StageTwoResult :=
  {| s2_model := fst mr;
     s2_ranking := text_of (snd mr);
     s2_parsed_ranking := parse (text_of (snd mr)) |}.

(** What stage 2 returns once the council has answered the ranking prompt. *)
Definition stage2_returns (state : CouncilState) (labels : list str)
  (responses : dict (option Response)) : Update :=
  let label_to_model := make_label_to_model labels (stage1_results state) in
  let results := collect_stage2 parse responses in
  {| upd_stage1_results := None;
     upd_stage2_results := Some results;
     upd_label_to_model := Some label_to_model;
     upd_stage3_result := None;
     upd_metadata :=
       Some [ (lit "label_to_model", MetaLabels label_to_model);
              (lit "aggregate_rankings",
               MetaAggregate (aggregate results label_to_model)) ] |}.

End StageTwoVocabulary.

(** ** Labels *)

(** The label of position [i]: the character of code point [65 + i]. *)
Definition label_at (i : nat) : str := [N.of_nat (65 + i)].

Definition key_at (i : nat) : str := lit "Response " ++ label_at i.

(** The uppercase alphabet, and its [i]-th letter as a one-character string. *)
Definition ALPHABET : str := lit "ABCDEFGHIJKLMNOPQRSTUVWXYZ".

Definition letter (i : nat) : str :=
  match nth_error ALPHABET i with
  | Some c => [c]
  | None => []
  end.

(** ** What each stage sends and returns *)

Definition user_message (text : str) : list Message :=
  [ {| role := lit "user"; content := text |} ].

Definition stage2_prompt (state : CouncilState) (labels : list str) : str :=
  make_ranking_prompt (user_query state)
    (make_responses_text labels (stage1_results state)).

Definition stage3_prompt (state : CouncilState) : str :=
  make_chairman_prompt (user_query state)
    (make_stage1_text (stage1_results state))
    (make_stage2_text (stage2_results state)).

Definition stage1_update (results : list StageOneResult) : Update :=
  {| upd_stage1_results := Some results;
     upd_stage2_results := None; upd_label_to_model := None;
     upd_stage3_result := None; upd_metadata := None |}.

Definition error_sentinel : StageThreeResult :=
  {| s3_model := lit "error"; s3_response := lit "No responses to synthesize." |}.

Definition chairman_failure : StageThreeResult :=
  {| s3_model := CHAIRMAN_MODEL; s3_response := lit "Error: Synthesis failed." |}.

Definition chairman_answer (r : Response) : StageThreeResult :=
  {| s3_model := CHAIRMAN_MODEL; s3_response := text_of r |}.

(** ** Sample data for concrete runs *)

Definition answer_one : StageOneResult :=
  {| s1_model := lit "M1"; s1_response := lit "first answer" |}.

Definition answer_two : StageOneResult :=
  {| s1_model := lit "M2"; s1_response := lit "second answer" |}.

Definition state_with (results : list StageOneResult) : CouncilState :=
  {| user_query := lit "Q";
     stage1_results := results;
     stage2_results := [];
     label_to_model := [];
     stage3_result := {| s3_model := []; s3_response := [] |};
     metadata := [] |}.

(** Every invocation fails. *)
Definition all_fail : Invoker :=
  {| answer_parallel := fun _ models _ => map (fun m => (m, None)) models;
     answer_single := fun _ _ _ => None |}.

(** Every invocation succeeds with a payload that has no 'content' field. *)
Definition no_content : Invoker :=
  {| answer_parallel :=
       fun _ models _ => map (fun m => (m, Some [(lit "id", lit "x")])) models;
     answer_single := fun _ _ _ => Some [(lit "id", lit "x")] |}.

(** The council answers, the chairman fails. *)
Definition chairman_down : Invoker :=
  {| answer_parallel :=
       fun _ models _ =>
         map (fun m => (m, Some [(lit "content", lit "text")])) models;
     answer_single := fun _ _ _ => None |}.

Definition ranks_AB : StageTwoResult :=
  {| s2_model := lit "M1"; s2_ranking := [];
     s2_parsed_ranking := [lit "A"; lit "B"] |}.

Definition ranks_BA : StageTwoResult :=
  {| s2_model := lit "M2"; s2_ranking := [];
     s2_parsed_ranking := [lit "B"; lit "A"] |}.

Definition two_labels : dict str :=
  [ (lit "Response A", lit "M1"); (lit "Response B", lit "M2") ].

(** A Stage-1 list with one result more than there are code points from
    [chr(65)] on. *)
Definition oversized_state : CouncilState :=
  state_with (repeat answer_one (N.to_nat 1114048)).

(** ** The steps of a run of the graph *)

(** What the council answers to the query (invocation 0). *)
Definition stage1_answer (inv : Invoker) (state : CouncilState)
  : dict (option Response) :=
  answer_parallel inv 0 COUNCIL_MODELS (user_message (user_query state)).

Definition after_stage1 (inv : Invoker) (state : CouncilState) : CouncilState :=
  merge state (stage1_update (collect_stage1 (stage1_answer inv state))).

(** What stage 2 returns when it is skipped. *)
Definition stage2_skipped : Update :=
  {| upd_stage1_results := None;
     upd_stage2_results := Some [];
     upd_label_to_model := Some [];
     upd_stage3_result := None;
     upd_metadata :=
       Some [ (lit "error", MetaText (lit "No stage 1 results")) ] |}.

(** What the council answers to the ranking prompt (invocation 1). *)
Definition stage2_answer (inv : Invoker) (state : CouncilState)
  (labels : list str) : dict (option Response) :=
  answer_parallel inv 1 COUNCIL_MODELS
    (user_message (stage2_prompt (after_stage1 inv state) labels)).

Section GraphVocabulary.

Variable parse : str -> list str.
Variable aggregate : list StageTwoResult -> dict str -> AggregateRanking.

Definition after_stage2 (inv : Invoker) (state : CouncilState)
  (labels : list str) : CouncilState :=
  merge (after_stage1 inv state)
    (stage2_returns parse aggregate (after_stage1 inv state) labels
       (stage2_answer inv state labels)).

(** What the chairman answers (invocation 2). *)
Definition stage3_answer (inv : Invoker) (state : CouncilState)
  (labels : list str) : option Response :=
  answer_single inv 2 CHAIRMAN_MODEL
    (user_message (stage3_prompt (after_stage2 inv state labels))).

Definition stage3_outcome (inv : Invoker) (state : CouncilState)
  (labels : list str) : StageThreeResult :=
  match stage3_answer inv state labels with
  | None => chairman_failure
  | Some r => chairman_answer r
  end.

End GraphVocabulary.

(** The body a label introduces in the ranking prompt. *)
Definition labelled_response (label response : str) : str :=
  lit "Response " ++ label ++ lit ":" ++ nl ++ response.

(** The four keys a council of four can produce. *)
Definition COUNCIL_KEYS : list str :=
  [ lit "Response A"; lit "Response B"; lit "Response C"; lit "Response D" ].

(** The council answers with text, and so does the chairman. *)
Definition all_answer : Invoker :=
  {| answer_parallel :=
       fun _ models _ =>
         map (fun m => (m, Some [(lit "content", lit "text")])) models;
     answer_single := fun _ _ _ => Some [(lit "content", lit "synthesis")] |}.

(** Two states that differ in everything but the query. *)
Definition stale_state : CouncilState :=
  {| user_query := lit "Q";
     stage1_results := [answer_one];
     stage2_results := [ranks_AB];
     label_to_model := two_labels;
     stage3_result := {| s3_model := lit "old"; s3_response := lit "old" |};
     metadata := [ (lit "note", MetaText (lit "old")) ] |}.

(** The same answers under other model names. *)
Definition renamed_state : CouncilState :=
  state_with
    [ {| s1_model := lit "X"; s1_response := lit "first answer" |};
      {| s1_model := lit "Y"; s1_response := lit "second answer" |} ].

(** The final state and the invocations of the run in which everybody
    answers the query "Q". *)
Definition answered_final : CouncilState :=
  match fst (run all_answer
               (create_council_graph Utils.parse_ranking_from_text
                  Utils.average_rank (state_with []))) with
  | Returned final => final
  | Raised _ => state_with []
  end.

Definition answered_calls : list Call :=
  snd (run all_answer
         (create_council_graph Utils.parse_ranking_from_text
            Utils.average_rank (state_with []))).

(** ** The states stage 2 receives *)

(** In the graph, stage 2 runs on what stage 1 collected from a dispatch over
    the council: a mapping with one entry per key, keyed by council models. *)
Definition collected_from_council (state : CouncilState) : Prop :=
  exists responses : dict (option Response),
    NoDup (keys responses) /\
    incl (keys responses) COUNCIL_MODELS /\
    stage1_results state = collect_stage1 responses.

(** A state after two answers and two rankings. *)
Definition ranked_one : StageTwoResult :=
  {| s2_model := lit "M1";
     s2_ranking :=
       lit "FINAL RANKING:" ++ nl ++ lit "1. Response B" ++ nl
       ++ lit "2. Response A";
     s2_parsed_ranking := [lit "B"; lit "A"] |}.

Definition ranked_two : StageTwoResult :=
  {| s2_model := lit "M2";
     s2_ranking :=
       lit "A is clearer. FINAL RANKING:" ++ nl ++ lit "1. Response A" ++ nl
       ++ lit "2. Response B";
     s2_parsed_ranking := [lit "A"; lit "B"] |}.

Definition deliberated_state : CouncilState :=
  {| user_query := lit "Q";
     stage1_results := [answer_one; answer_two];
     stage2_results := [ranked_one; ranked_two];
     label_to_model := two_labels;
     stage3_result := {| s3_model := []; s3_response := [] |};
     metadata := [] |}.

(** * Properties *)

Arguments lit : simpl never.
Arguments chr : simpl never.

(** ** Running composed programs *)

Lemma run_from_bind {A B} (inv : Invoker) (p : Prog A) (f : A -> Prog B) :
  forall n,
    run_from inv n (bind p f) =
    match run_from inv n p with
    | (Returned a, calls) =>
        let (o, calls') := run_from inv (n + length calls) (f a) in
        (o, calls ++ calls')
    | (Raised e, calls) => (Raised e, calls)
    end.
Proof.
  induction p as [a | e | ms msgs k IH | m msgs k IH]; intros n; simpl.
  - rewrite Nat.add_0_r. destruct (run_from inv n (f a)); reflexivity.
  - reflexivity.
  - rewrite IH.
    destruct (run_from inv (S n) (k (answer_parallel inv n ms msgs)))
      as [[a | e] calls]; simpl.
    + rewrite Nat.add_succ_r.
      destruct (run_from inv (S (n + length calls)) (f a)); reflexivity.
    + reflexivity.
  - rewrite IH.
    destruct (run_from inv (S n) (k (answer_single inv n m msgs)))
      as [[a | e] calls]; simpl.
    + rewrite Nat.add_succ_r.
      destruct (run_from inv (S (n + length calls)) (f a)); reflexivity.
    + reflexivity.
Qed.

(** ** The collecting loops *)

Lemma collect_stage1_from acc responses :
  fold_left
    (fun acc (item : str * option Response) =>
       let (model, response) := item in
       match response with
       | Some response =>
           acc ++ [ {| s1_model := model;
                       s1_response := get_default response (lit "content") [] |} ]
       | None => acc
       end)
    responses acc
  = acc ++ map to_stage1 (succeeded responses).
Proof.
  revert acc.
  induction responses as [| [m [r |]] rest IH]; intros acc; simpl.
  - now rewrite app_nil_r.
  - rewrite IH, <- app_assoc. reflexivity.
  - apply IH.
Qed.

Lemma collect_stage1_succeeded responses :
  collect_stage1 responses = map to_stage1 (succeeded responses).
Proof. unfold collect_stage1. now rewrite collect_stage1_from. Qed.

Lemma in_succeeded responses m r :
  In (m, r) (succeeded responses) <-> In (m, Some r) responses.
Proof.
  unfold succeeded. rewrite in_flat_map. split.
  - intros [[m' [r' |]] [Hin H]]; simpl in H; [| contradiction].
    destruct H as [H | []]. now inversion H; subst.
  - intros Hin. exists (m, Some r). split; [assumption | now left].
Qed.

Lemma succeeded_keys_incl responses m :
  In m (map fst (succeeded responses)) -> In m (keys responses).
Proof.
  intros H. apply in_map_iff in H. destruct H as [[m' r] [<- H]].
  apply in_succeeded in H. unfold keys.
  now apply (in_map fst) in H.
Qed.

Lemma succeeded_NoDup responses :
  NoDup (keys responses) -> NoDup (map fst (succeeded responses)).
Proof.
  induction responses as [| [m [r |]] rest IH]; simpl; intros H.
  - constructor.
  - inversion H as [| ? ? Hnotin Hrest]; subst. constructor.
    + intros Hin. apply Hnotin. now apply succeeded_keys_incl.
    + now apply IH.
  - inversion H; subst. now apply IH.
Qed.

Lemma succeeded_all responses :
  (forall item, In item responses -> snd item <> None) ->
  length (succeeded responses) = length responses.
Proof.
  induction responses as [| [m [r |]] rest IH]; simpl; intros H.
  - reflexivity.
  - f_equal. apply IH. intros item Hin. apply H. now right.
  - exfalso. apply (H (m, None)); [now left | reflexivity].
Qed.

Lemma to_stage1_models l : map s1_model (map to_stage1 l) = map fst l.
Proof. rewrite map_map. reflexivity. Qed.

(** ** Labels *)

Lemma traverse_Some {A B} (f : A -> option B) (g : A -> B) xs :
  (forall x, In x xs -> f x = Some (g x)) ->
  traverse f xs = Some (map g xs).
Proof.
  induction xs as [| x xs IH]; simpl; intros H.
  - reflexivity.
  - rewrite (H x) by now left.
    rewrite IH by (intros y Hy; apply H; now right).
    reflexivity.
Qed.

Lemma traverse_None {A B} (f : A -> option B) xs x :
  In x xs -> f x = None -> traverse f xs = None.
Proof.
  induction xs as [| y xs IH]; simpl; intros Hin Hx.
  - contradiction.
  - destruct Hin as [-> | Hin].
    + now rewrite Hx.
    + destruct (f y); [| reflexivity]. now rewrite IH.
Qed.

Lemma chr_valid i :
  (N.of_nat i < 1114112)%N -> chr i = Some [N.of_nat i].
Proof.
  intros H. unfold chr. apply N.ltb_lt in H. now rewrite H.
Qed.

Lemma chr_invalid i : (1114112 <= N.of_nat i)%N -> chr i = None.
Proof.
  intros H. unfold chr. apply N.ltb_ge in H. now rewrite H.
Qed.

Lemma make_labels_Some n :
  (N.of_nat n <= 1114047)%N ->
  make_labels n = Some (map label_at (seq 0 n)).
Proof.
  intros Hn. unfold make_labels. apply traverse_Some.
  intros i Hi. apply in_seq in Hi. unfold label_at.
  apply chr_valid. lia.
Qed.

Lemma make_labels_None n :
  (1114047 < N.of_nat n)%N -> make_labels n = None.
Proof.
  intros Hn. unfold make_labels.
  apply traverse_None with (x := n - 1).
  - apply in_seq. lia.
  - apply chr_invalid. lia.
Qed.

Lemma traverse_length {A B} (f : A -> option B) xs ys :
  traverse f xs = Some ys -> length ys = length xs.
Proof.
  revert ys. induction xs as [| x xs IH]; simpl; intros ys H.
  - now inversion H.
  - destruct (f x); [| discriminate].
    destruct (traverse f xs); [| discriminate].
    inversion H; subst. simpl. f_equal. now apply IH.
Qed.

Lemma make_labels_length n labels :
  make_labels n = Some labels -> length labels = n.
Proof.
  unfold make_labels. intros H. apply traverse_length in H.
  now rewrite length_seq in H.
Qed.

(** ** Stage 1 *)

Lemma stage1_run inv n state :
  run_from inv n (stage1_node state) =
  (Returned
     (stage1_update
        (collect_stage1
           (answer_parallel inv n COUNCIL_MODELS
              (user_message (user_query state))))),
   [CallParallel COUNCIL_MODELS (user_message (user_query state))]).
Proof. reflexivity. Qed.

(** C6.  Stage 1 dispatches the query once to the council and returns, never
    raising, exactly the successful answers in iteration order, each model
    paired with its text; a model whose invocation failed has no result; the
    models of the results are distinct when the dispatcher's mapping is a
    mapping; and when every invocation of a dispatch over the council
    succeeds there are as many results as council models. *)
Theorem stage1_one_result_per_success (inv : Invoker) (n : nat)
  (state : CouncilState) :
  let responses :=
    answer_parallel inv n COUNCIL_MODELS (user_message (user_query state)) in
  exists results,
    run_from inv n (stage1_node state) =
      (Returned (stage1_update results),
       [CallParallel COUNCIL_MODELS (user_message (user_query state))]) /\
    results = map to_stage1 (succeeded responses) /\
    (forall m text,
        In {| s1_model := m; s1_response := text |} results <->
        exists r, In (m, Some r) responses /\ text = text_of r) /\
    (forall m, In (m, None) responses -> NoDup (keys responses) ->
               ~ In m (map s1_model results)) /\
    (NoDup (keys responses) -> NoDup (map s1_model results)) /\
    ((forall item, In item responses -> snd item <> None) ->
     length results = length responses) /\
    ((forall item, In item responses -> snd item <> None) ->
     Permutation (keys responses) COUNCIL_MODELS ->
     length results = length COUNCIL_MODELS).
Proof.
  intros responses. exists (map to_stage1 (succeeded responses)).
  split; [| split; [| split; [| split; [| split; [| split]]]]].
  - rewrite stage1_run. fold responses.
    now rewrite collect_stage1_succeeded.
  - reflexivity.
  - intros m text. rewrite in_map_iff. split.
    + intros [[m' r] [Heq Hin]]. inversion Heq; subst.
      exists r. split; [now apply in_succeeded | reflexivity].
    + intros [r [Hin ->]]. exists (m, r).
      split; [reflexivity | now apply in_succeeded].
  - intros m Hnone Hnd Hin. rewrite to_stage1_models in Hin.
    apply in_map_iff in Hin. destruct Hin as [[m' r] [Hm Hin]].
    simpl in Hm; subst m'. apply in_succeeded in Hin.
    clear - Hnone Hnd Hin. unfold keys in Hnd.
    induction responses as [| [k v] rest IH]; simpl in *; [contradiction |].
    inversion Hnd as [| ? ? Hk Hrest]; subst.
    destruct Hnone as [H1 | H1], Hin as [H2 | H2].
    + congruence.
    + inversion H1; subst. apply Hk. now apply (in_map fst) in H2.
    + inversion H2; subst. apply Hk. now apply (in_map fst) in H1.
    + now apply IH.
  - intros Hnd. rewrite to_stage1_models. now apply succeeded_NoDup.
  - intros Hall. rewrite length_map. now apply succeeded_all.
  - intros Hall Hperm. rewrite length_map, succeeded_all by assumption.
    apply Permutation_length in Hperm. unfold keys in Hperm.
    now rewrite length_map in Hperm.
Qed.

(** ** Stage 3 *)

Lemma stage3_run_empty inv n state :
  stage1_results state = [] ->
  run_from inv n (stage3_node state) =
  (Returned (stage3_update error_sentinel), []).
Proof. intros H. unfold stage3_node. now rewrite H. Qed.

Lemma stage3_run inv n state :
  stage1_results state <> [] ->
  run_from inv n (stage3_node state) =
  (Returned
     (stage3_update
        match answer_single inv n CHAIRMAN_MODEL
                (user_message (stage3_prompt state)) with
        | None => chairman_failure
        | Some r => chairman_answer r
        end),
   [CallSingle CHAIRMAN_MODEL (user_message (stage3_prompt state))]).
Proof.
  intros H. unfold stage3_node.
  destruct (stage1_results state) as [| r rs] eqn:E; [contradiction |].
  simpl. unfold stage3_prompt. rewrite E.
  destruct (answer_single inv n CHAIRMAN_MODEL _); reflexivity.
Qed.

(** ** Stage 2 *)

Section Stage2.

Variable parse : str -> list str.
Variable aggregate : list StageTwoResult -> dict str -> AggregateRanking.

Lemma collect_stage2_from acc responses :
  fold_left
    (fun acc (item : str * option Response) =>
       let (model, response) := item in
       match response with
       | Some response =>
           let full_text := get_default response (lit "content") [] in
           let parsed := parse full_text in
           acc ++ [ {| s2_model := model;
                       s2_ranking := full_text;
                       s2_parsed_ranking := parsed |} ]
       | None => acc
       end)
    responses acc
  = acc ++ map (to_stage2 parse) (succeeded responses).
Proof.
  revert acc.
  induction responses as [| [m [r |]] rest IH]; intros acc; simpl.
  - now rewrite app_nil_r.
  - rewrite IH, <- app_assoc. reflexivity.
  - apply IH.
Qed.

Lemma collect_stage2_succeeded responses :
  collect_stage2 parse responses = map (to_stage2 parse) (succeeded responses).
Proof. unfold collect_stage2. now rewrite collect_stage2_from. Qed.

Lemma stage2_run_empty inv n state :
  stage1_results state = [] ->
  run_from inv n (stage2_node parse aggregate state) =
  (Returned
     {| upd_stage1_results := None;
        upd_stage2_results := Some [];
        upd_label_to_model := Some [];
        upd_stage3_result := None;
        upd_metadata :=
          Some [ (lit "error", MetaText (lit "No stage 1 results")) ] |},
   []).
Proof. intros H. unfold stage2_node. now rewrite H. Qed.

Lemma stage2_run inv n state labels :
  stage1_results state <> [] ->
  make_labels (length (stage1_results state)) = Some labels ->
  run_from inv n (stage2_node parse aggregate state) =
  (Returned
     (stage2_returns parse aggregate state labels
        (answer_parallel inv n COUNCIL_MODELS
           (user_message (stage2_prompt state labels)))),
   [CallParallel COUNCIL_MODELS (user_message (stage2_prompt state labels))]).
Proof.
  intros Hne Hlabels. unfold stage2_node, stage2_returns, stage2_prompt.
  destruct (stage1_results state) as [| r rs] eqn:E; [contradiction |].
  rewrite Hlabels. reflexivity.
Qed.

Lemma stage2_run_raises inv n state :
  stage1_results state <> [] ->
  make_labels (length (stage1_results state)) = None ->
  run_from inv n (stage2_node parse aggregate state) = (Raised ValueError, []).
Proof.
  intros Hne Hlabels. unfold stage2_node.
  destruct (stage1_results state) as [| r rs] eqn:E; [contradiction |].
  now rewrite Hlabels.
Qed.

(** C2.  With no Stage-1 result, stage 2 returns an empty result list, an
    empty label map and a metadata dict whose only entry flags the absence,
    and the run makes no invocation. *)
Theorem stage2_empty_short_circuits (inv : Invoker) (n : nat)
  (state : CouncilState) :
  stage1_results state = [] ->
  run_from inv n (stage2_node parse aggregate state) =
  (Returned
     {| upd_stage1_results := None;
        upd_stage2_results := Some [];
        upd_label_to_model := Some [];
        upd_stage3_result := None;
        upd_metadata :=
          Some [ (lit "error", MetaText (lit "No stage 1 results")) ] |},
   []).
Proof. apply stage2_run_empty. Qed.

End Stage2.

(** ** The graph *)

Lemma graph_run parse aggregate inv state u2 c2 u3 c3 :
  let state1 :=
    merge state
      (stage1_update
         (collect_stage1
            (answer_parallel inv 0 COUNCIL_MODELS
               (user_message (user_query state))))) in
  run_from inv 1 (stage2_node parse aggregate state1) = (Returned u2, c2) ->
  run_from inv (1 + length c2) (stage3_node (merge state1 u2))
    = (Returned u3, c3) ->
  run inv (create_council_graph parse aggregate state) =
  (Returned (merge (merge state1 u2) u3),
   CallParallel COUNCIL_MODELS (user_message (user_query state)) :: c2 ++ c3).
Proof.
  intros state1 H2 H3. unfold run, create_council_graph.
  rewrite run_from_bind, stage1_run. cbn [length Nat.add].
  fold state1. rewrite run_from_bind, H2.
  rewrite run_from_bind, H3. simpl.
  now rewrite app_nil_r.
Qed.

Lemma succeeded_length responses :
  length (succeeded responses) <= length responses.
Proof.
  induction responses as [| [m [r |]] rest IH]; simpl; lia.
Qed.

Lemma text_of_missing r :
  dict_get (lit "content") r = None -> text_of r = [].
Proof. intros H. unfold text_of, get_default. now rewrite H. Qed.

Lemma succeeded_none responses :
  (forall item, In item responses -> snd item = None) ->
  succeeded responses = [].
Proof.
  induction responses as [| [m [r |]] rest IH]; intros Hall.
  - reflexivity.
  - exfalso. specialize (Hall (m, Some r) (or_introl eq_refl)). discriminate.
  - simpl. apply IH. intros item Hin. apply Hall. now right.
Qed.

(** C3.  With no Stage-1 result, stage 3 returns the sentinel whose model tag
    is "error" and whose text explains that there is nothing to synthesize;
    it returns rather than raises, and the run makes no invocation.  In a run
    of the whole graph in which every Stage-1 invocation fails, the only
    invocation is the Stage-1 dispatch, and the final state holds no Stage-2
    result, an empty label map and that sentinel. *)
Theorem stage3_empty_returns_error_sentinel
  (parse : str -> list str)
  (aggregate : list StageTwoResult -> dict str -> AggregateRanking)
  (inv : Invoker) :
  (forall n state,
      stage1_results state = [] ->
      run_from inv n (stage3_node state) =
      (Returned
         (stage3_update
            {| s3_model := lit "error";
               s3_response := lit "No responses to synthesize." |}),
       []))
  /\
  (forall state,
      (forall item,
          In item (answer_parallel inv 0 COUNCIL_MODELS
                     (user_message (user_query state))) ->
          snd item = None) ->
      exists final,
        run inv (create_council_graph parse aggregate state) =
          (Returned final,
           [CallParallel COUNCIL_MODELS (user_message (user_query state))]) /\
        stage1_results final = [] /\
        stage2_results final = [] /\
        label_to_model final = [] /\
        stage3_result final =
          {| s3_model := lit "error";
             s3_response := lit "No responses to synthesize." |}).
Proof.
  split.
  - intros n state H. now apply stage3_run_empty.
  - intros state Hall.
    set (responses := answer_parallel inv 0 COUNCIL_MODELS
                        (user_message (user_query state))) in *.
    set (state1 := merge state (stage1_update (collect_stage1 responses))).
    assert (H1 : stage1_results state1 = []).
    { unfold state1. cbn [merge stage1_results stage1_update
                          upd_stage1_results or_keep].
      rewrite collect_stage1_succeeded, succeeded_none by exact Hall.
      reflexivity. }
    pose proof (stage2_run_empty parse aggregate inv 1 state1 H1) as H2.
    set (u2 := {| upd_stage1_results := None;
                  upd_stage2_results := Some [];
                  upd_label_to_model := Some [];
                  upd_stage3_result := None;
                  upd_metadata :=
                    Some [ (lit "error", MetaText (lit "No stage 1 results")) ] |})
      in H2.
    assert (H1' : stage1_results (merge state1 u2) = []) by exact H1.
    pose proof (stage3_run_empty inv (1 + length (@nil Call)) (merge state1 u2) H1')
      as H3.
    eexists. split; [| split; [| split; [| split]]].
    + apply (graph_run parse aggregate inv state H2 H3).
    + exact H1.
    + reflexivity.
    + reflexivity.
    + reflexivity.
Qed.

(** C7.  When the Stage-1 list is not empty and the chairman's invocation
    fails, stage 3 returns (it does not raise) the sentinel tagged with the
    chairman's identifier and the message "Error: Synthesis failed."; and a
    run of the whole graph in which some council model answered stage 1 and
    the chairman fails still returns a final state, whose stage-3 result is
    that sentinel. *)
Theorem stage3_chairman_failure_sentinel
  (parse : str -> list str)
  (aggregate : list StageTwoResult -> dict str -> AggregateRanking)
  (inv : Invoker) :
  (forall n state,
      stage1_results state <> [] ->
      answer_single inv n CHAIRMAN_MODEL (user_message (stage3_prompt state))
        = None ->
      run_from inv n (stage3_node state) =
      (Returned
         (stage3_update
            {| s3_model := CHAIRMAN_MODEL;
               s3_response := lit "Error: Synthesis failed." |}),
       [CallSingle CHAIRMAN_MODEL (user_message (stage3_prompt state))]))
  /\
  (forall state,
      let responses :=
        answer_parallel inv 0 COUNCIL_MODELS (user_message (user_query state)) in
      succeeded responses <> [] ->
      Permutation (keys responses) COUNCIL_MODELS ->
      (forall msgs, answer_single inv 2 CHAIRMAN_MODEL msgs = None) ->
      exists final calls,
        run inv (create_council_graph parse aggregate state)
          = (Returned final, calls) /\
        length calls = 3 /\
        stage3_result final =
          {| s3_model := CHAIRMAN_MODEL;
             s3_response := lit "Error: Synthesis failed." |}).
Proof.
  split.
  - intros n state Hne Hfail. rewrite stage3_run by assumption.
    now rewrite Hfail.
  - intros state responses Hsome Hperm Hfail.
    set (s1 := collect_stage1 responses).
    set (state1 := merge state (stage1_update s1)).
    assert (Hs1 : stage1_results state1 = s1) by reflexivity.
    assert (Hne : stage1_results state1 <> []).
    { rewrite Hs1. unfold s1. rewrite collect_stage1_succeeded.
      destruct (succeeded responses); [contradiction | discriminate]. }
    assert (Hlen : length s1 <= 4).
    { unfold s1. rewrite collect_stage1_succeeded, length_map.
      etransitivity; [apply succeeded_length |].
      apply Permutation_length in Hperm. unfold keys in Hperm.
      rewrite length_map in Hperm. rewrite Hperm. apply Nat.le_refl. }
    assert (Hlabels :
              make_labels (length (stage1_results state1))
              = Some (map label_at (seq 0 (length (stage1_results state1))))).
    { apply make_labels_Some. rewrite Hs1. lia. }
    pose proof (stage2_run parse aggregate inv 1 state1 Hne Hlabels) as H2.
    set (labels := map label_at (seq 0 (length (stage1_results state1)))) in *.
    set (u2 := stage2_returns parse aggregate state1 labels _) in H2.
    assert (Hne2 : stage1_results (merge state1 u2) <> []) by exact Hne.
    pose proof (stage3_run inv 2 (merge state1 u2) Hne2) as H3.
    rewrite Hfail in H3.
    eexists. eexists. split; [| split].
    + apply (graph_run parse aggregate inv state H2 H3).
    + reflexivity.
    + reflexivity.
Qed.

(** C9.  A successful invocation whose payload has no 'content' field counts
    as a success with empty text: stage 1 records the model with the empty
    response, stage 2 records it with the empty ranking text (and what the
    parser makes of it), and stage 3 returns the chairman's result with the
    empty response (an update that assigns the Stage-3 result and nothing
    else). *)
Theorem missing_content_is_empty_text
  (parse : str -> list str)
  (aggregate : list StageTwoResult -> dict str -> AggregateRanking)
  (inv : Invoker) (n : nat) (state : CouncilState) :
  (forall m r,
      In (m, Some r)
         (answer_parallel inv n COUNCIL_MODELS (user_message (user_query state))) ->
      dict_get (lit "content") r = None ->
      exists results calls,
        run_from inv n (stage1_node state)
          = (Returned (stage1_update results), calls) /\
        In {| s1_model := m; s1_response := [] |} results)
  /\
  (forall labels m r,
      stage1_results state <> [] ->
      make_labels (length (stage1_results state)) = Some labels ->
      In (m, Some r)
         (answer_parallel inv n COUNCIL_MODELS
            (user_message (stage2_prompt state labels))) ->
      dict_get (lit "content") r = None ->
      exists update results calls,
        run_from inv n (stage2_node parse aggregate state)
          = (Returned update, calls) /\
        upd_stage2_results update = Some results /\
        In {| s2_model := m; s2_ranking := []; s2_parsed_ranking := parse [] |}
           results)
  /\
  (forall r,
      stage1_results state <> [] ->
      answer_single inv n CHAIRMAN_MODEL (user_message (stage3_prompt state))
        = Some r ->
      dict_get (lit "content") r = None ->
      run_from inv n (stage3_node state) =
      (Returned
         {| upd_stage1_results := None;
            upd_stage2_results := None;
            upd_label_to_model := None;
            upd_stage3_result :=
              Some {| s3_model := CHAIRMAN_MODEL; s3_response := [] |};
            upd_metadata := None |},
       [CallSingle CHAIRMAN_MODEL (user_message (stage3_prompt state))])).
Proof.
  split; [| split].
  - intros m r Hin Hmissing. eexists. eexists. split.
    + apply stage1_run.
    + rewrite collect_stage1_succeeded. apply in_map_iff.
      exists (m, r). split.
      * unfold to_stage1. simpl. now rewrite text_of_missing.
      * now apply in_succeeded.
  - intros labels m r Hne Hlabels Hin Hmissing.
    eexists. eexists. eexists. split; [| split].
    + apply (stage2_run parse aggregate inv n state Hne Hlabels).
    + reflexivity.
    + rewrite collect_stage2_succeeded. apply in_map_iff.
      exists (m, r). split.
      * unfold to_stage2. simpl. now rewrite text_of_missing.
      * now apply in_succeeded.
  - intros r Hne Hanswer Hmissing. rewrite stage3_run by assumption.
    rewrite Hanswer. unfold chairman_answer.
    now rewrite text_of_missing.
Qed.

(** ** The label map *)

Lemma dict_set_fresh {V} (k : str) (v : V) (d : dict V) :
  ~ In k (keys d) -> dict_set k v d = d ++ [(k, v)].
Proof.
  induction d as [| [k' v'] d IH]; simpl; intros Hfresh.
  - reflexivity.
  - destruct (str_eq_dec k k') as [-> | Hneq].
    + exfalso. apply Hfresh. now left.
    + f_equal. apply IH. intros Hin. apply Hfresh. now right.
Qed.

Lemma dict_of_from {V} (kvs acc : dict V) :
  NoDup (keys (acc ++ kvs)) ->
  fold_left (fun d kv => dict_set (fst kv) (snd kv) d) kvs acc = acc ++ kvs.
Proof.
  revert acc. induction kvs as [| [k v] kvs IH]; intros acc Hnd; simpl.
  - now rewrite app_nil_r.
  - assert (Hfresh : ~ In k (keys acc)).
    { unfold keys in *. rewrite map_app in Hnd. simpl in Hnd.
      apply NoDup_remove_2 in Hnd. intros Hin. apply Hnd.
      apply in_or_app. now left. }
    rewrite dict_set_fresh by assumption.
    rewrite IH; rewrite <- app_assoc; [reflexivity | exact Hnd].
Qed.

Lemma dict_of_NoDup {V} (kvs : dict V) :
  NoDup (keys kvs) -> dict_of kvs = kvs.
Proof. intros H. unfold dict_of. now rewrite dict_of_from. Qed.

Lemma dict_get_nth {V} (d : dict V) i k v :
  NoDup (keys d) -> nth_error d i = Some (k, v) -> dict_get k d = Some v.
Proof.
  revert i. induction d as [| [k' v'] d IH]; intros i Hnd Hnth.
  - destruct i; discriminate.
  - simpl. inversion Hnd as [| ? ? Hk Hrest]; subst.
    destruct i as [| i]; simpl in Hnth.
    + inversion Hnth; subst. destruct (str_eq_dec k k); congruence.
    + destruct (str_eq_dec k k') as [-> | Hneq].
      * exfalso. apply Hk. apply nth_error_In in Hnth.
        now apply (in_map fst) in Hnth.
      * now apply (IH i).
Qed.

Lemma key_at_inj i j : key_at i = key_at j -> i = j.
Proof.
  unfold key_at, label_at. intros H. apply app_inv_head in H.
  apply (f_equal (hd 0%N)) in H. cbn [hd] in H. lia.
Qed.

Lemma NoDup_key_at l : NoDup l -> NoDup (map key_at l).
Proof.
  induction 1 as [| i l Hi Hl IH]; simpl; constructor.
  - intros Hin. apply in_map_iff in Hin. destruct Hin as [j [Hj Hin]].
    apply key_at_inj in Hj. now subst.
  - exact IH.
Qed.

Lemma combine_map_pairs {A B C D} (f : A -> C) (g : B -> D) l1 l2 :
  map (fun ab : A * B => let (a, b) := ab in (f a, g b)) (combine l1 l2)
  = combine (map f l1) (map g l2).
Proof.
  revert l2. induction l1 as [| a l1 IH]; intros [| b l2]; simpl;
    try reflexivity.
  now rewrite IH.
Qed.

Lemma combine_keys {A B} (l1 : list A) (l2 : list B) :
  length l1 = length l2 -> map fst (combine l1 l2) = l1.
Proof.
  revert l2. induction l1 as [| a l1 IH]; intros [| b l2]; simpl;
    intros H; try discriminate; try reflexivity.
  f_equal. apply IH. now inversion H.
Qed.

Lemma combine_values {A B} (l1 : list A) (l2 : list B) :
  length l1 = length l2 -> map snd (combine l1 l2) = l2.
Proof.
  revert l2. induction l1 as [| a l1 IH]; intros [| b l2]; simpl;
    intros H; try discriminate; try reflexivity.
  f_equal. apply IH. now inversion H.
Qed.

(** With the labels of [make_labels], the label map pairs position [i]'s
    key with position [i]'s model, and no key repeats. *)
Lemma label_map_shape (results : list StageOneResult) :
  make_label_to_model (map label_at (seq 0 (length results))) results
  = combine (map key_at (seq 0 (length results))) (map s1_model results).
Proof.
  unfold make_label_to_model.
  rewrite (combine_map_pairs (fun label => lit "Response " ++ label) s1_model).
  rewrite map_map. fold key_at.
  change (map (fun x => lit "Response " ++ label_at x)) with (map key_at).
  apply dict_of_NoDup. unfold keys.
  rewrite combine_keys by now rewrite !length_map, length_seq.
  apply NoDup_key_at, seq_NoDup.
Qed.

Lemma label_at_letter i : i < 26 -> label_at i = letter i.
Proof.
  intros H.
  do 26 (destruct i as [| i]; [reflexivity |]).
  lia.
Qed.

Lemma nth_error_combine {A B} (l1 : list A) (l2 : list B) i a b :
  nth_error (combine l1 l2) i = Some (a, b) <->
  nth_error l1 i = Some a /\ nth_error l2 i = Some b.
Proof.
  revert l2 i. induction l1 as [| x l1 IH]; intros [| y l2] [| i]; simpl;
    try (split; [discriminate | intros [? ?]; discriminate]).
  - split.
    + intros H. inversion H. now split.
    + intros [H1 H2]. inversion H1. inversion H2. reflexivity.
  - apply IH.
Qed.

Lemma nth_error_key_at n i :
  i < n -> nth_error (map key_at (seq 0 n)) i = Some (key_at i).
Proof.
  intros H. rewrite nth_error_map, nth_error_seq.
  apply Nat.ltb_lt in H. now rewrite H.
Qed.

Lemma dict_get_In {V} (d : dict V) k v :
  dict_get k d = Some v -> In (k, v) d.
Proof.
  induction d as [| [k' v'] d IH]; simpl; [discriminate |].
  destruct (str_eq_dec k k') as [-> | Hneq].
  - intros H. inversion H. now left.
  - intros H. right. now apply IH.
Qed.

Section LabelMap.

Variable parse : str -> list str.
Variable aggregate : list StageTwoResult -> dict str -> AggregateRanking.

(** C1.  For a non-empty Stage-1 list of at most 26 results, stage 2 returns
    a label map in which the [i]-th result, in list order, is keyed by
    "Response " followed by the [i]-th uppercase letter and mapped to that
    result's model; the map has as many entries as there are results, no key
    occurs twice, looking a key up gives the model of its result, and every
    entry of the map is the entry of exactly one position. *)
Theorem stage2_label_map_bijection (inv : Invoker) (n : nat)
  (state : CouncilState) :
  stage1_results state <> [] ->
  length (stage1_results state) <= 26 ->
  exists update calls l2m,
    run_from inv n (stage2_node parse aggregate state)
      = (Returned update, calls) /\
    upd_label_to_model update = Some l2m /\
    keys l2m =
      map (fun i => lit "Response " ++ letter i)
          (seq 0 (length (stage1_results state))) /\
    values l2m = map s1_model (stage1_results state) /\
    length l2m = length (stage1_results state) /\
    NoDup (keys l2m) /\
    (forall i r,
        nth_error (stage1_results state) i = Some r ->
        nth_error l2m i = Some (lit "Response " ++ letter i, s1_model r) /\
        dict_get (lit "Response " ++ letter i) l2m = Some (s1_model r)) /\
    (forall k m,
        dict_get k l2m = Some m ->
        exists i r,
          nth_error (stage1_results state) i = Some r /\
          k = lit "Response " ++ letter i /\
          m = s1_model r /\
          forall j, j < length (stage1_results state) ->
                    lit "Response " ++ letter j = k -> j = i).
Proof.
  intros Hne Hlen.
  set (results := stage1_results state) in *.
  set (len := length results) in *.
  assert (Hlabels : make_labels len = Some (map label_at (seq 0 len))).
  { apply make_labels_Some. lia. }
  assert (Hkey : forall i, i < len -> key_at i = lit "Response " ++ letter i).
  { intros i Hi. unfold key_at. rewrite label_at_letter by lia. reflexivity. }
  set (l2m := combine (map key_at (seq 0 len)) (map s1_model results)).
  assert (Hlens : length (map key_at (seq 0 len)) = length (map s1_model results)).
  { now rewrite !length_map, length_seq. }
  assert (Hkeys : keys l2m = map key_at (seq 0 len)).
  { unfold keys, l2m. now apply combine_keys. }
  assert (Hnd : NoDup (keys l2m)).
  { rewrite Hkeys. apply NoDup_key_at, seq_NoDup. }
  assert (Hnth : forall i r, nth_error results i = Some r ->
                             nth_error l2m i = Some (key_at i, s1_model r)).
  { intros i r Hr. apply nth_error_combine. split.
    - apply nth_error_key_at. apply nth_error_Some. fold results. congruence.
    - now apply map_nth_error. }
  eexists. exists [CallParallel COUNCIL_MODELS
                     (user_message (stage2_prompt state (map label_at (seq 0 len))))].
  exists l2m.
  split; [| split; [| split; [| split; [| split; [| split; [| split]]]]]].
  - apply (stage2_run parse aggregate inv n state Hne Hlabels).
  - unfold stage2_returns. cbn [upd_label_to_model]. f_equal.
    apply label_map_shape.
  - rewrite Hkeys. apply map_ext_in. intros i Hi. apply in_seq in Hi.
    apply Hkey. lia.
  - unfold values, l2m. now apply combine_values.
  - unfold l2m. rewrite length_combine, !length_map, length_seq.
    fold len. apply Nat.min_id.
  - exact Hnd.
  - intros i r Hr.
    assert (Hi : i < len).
    { apply nth_error_Some. fold results. congruence. }
    rewrite <- (Hkey i Hi). split.
    + now apply Hnth.
    + apply (dict_get_nth l2m i Hnd). now apply Hnth.
  - intros k m Hget. apply dict_get_In in Hget.
    apply In_nth_error in Hget. destruct Hget as [i Hi].
    apply nth_error_combine in Hi. destruct Hi as [Hk Hm].
    rewrite nth_error_map in Hm.
    destruct (nth_error results i) as [r |] eqn:Hr; [| discriminate].
    assert (Hlt : i < len).
    { apply nth_error_Some. fold results. congruence. }
    rewrite nth_error_key_at in Hk by assumption.
    inversion Hk; subst k. inversion Hm; subst m.
    exists i, r. split; [exact Hr | split; [now apply Hkey | split]].
    + reflexivity.
    + intros j Hj Heq. rewrite <- (Hkey j Hj) in Heq.
      now apply key_at_inj.
Qed.

(** For a non-empty Stage-1 list whose labels are all valid code points,
    stage 2 dispatches the ranking prompt once and returns: one result per
    successful answer, the label map, and a metadata dict holding exactly
    the label map and the aggregate ranking of the returned results. *)
Lemma stage2_returns_within_code_points (inv : Invoker) (n : nat)
  (state : CouncilState) :
  stage1_results state <> [] ->
  (N.of_nat (length (stage1_results state)) <= 1114047)%N ->
  exists labels responses results l2m md,
    labels = map label_at (seq 0 (length (stage1_results state))) /\
    responses =
      answer_parallel inv n COUNCIL_MODELS
        (user_message (stage2_prompt state labels)) /\
    results = map (to_stage2 parse) (succeeded responses) /\
    l2m = combine (map key_at (seq 0 (length (stage1_results state))))
                  (map s1_model (stage1_results state)) /\
    md = [ (lit "label_to_model", MetaLabels l2m);
           (lit "aggregate_rankings", MetaAggregate (aggregate results l2m)) ] /\
    run_from inv n (stage2_node parse aggregate state) =
      (Returned
         {| upd_stage1_results := None;
            upd_stage2_results := Some results;
            upd_label_to_model := Some l2m;
            upd_stage3_result := None;
            upd_metadata := Some md |},
       [CallParallel COUNCIL_MODELS (user_message (stage2_prompt state labels))]) /\
    dict_get (lit "error") md = None /\
    dict_get (lit "label_to_model") md = Some (MetaLabels l2m) /\
    dict_get (lit "aggregate_rankings") md
      = Some (MetaAggregate (aggregate results l2m)) /\
    ((forall item, In item responses -> snd item = None) -> results = []).
Proof.
  intros Hne Hlen.
  pose proof (make_labels_Some _ Hlen) as Hlabels.
  do 5 eexists.
  repeat (split; [reflexivity |]).
  split; [| split; [| split; [| split]]].
  - rewrite (stage2_run parse aggregate inv n state Hne Hlabels).
    unfold stage2_returns.
    rewrite collect_stage2_succeeded, label_map_shape. reflexivity.
  - reflexivity.
  - reflexivity.
  - reflexivity.
  - intros Hall. now rewrite succeeded_none.
Qed.

End LabelMap.

(** ** Embedding text in a prompt *)

Lemma infix_refl s : infix s s.
Proof. exists [], []. now rewrite app_nil_r. Qed.

Lemma infix_head x rest : infix x (x ++ rest).
Proof. now exists [], rest. Qed.

Lemma infix_skip x a s : infix x s -> infix x (a ++ s).
Proof.
  intros [pre [post ->]]. exists (a ++ pre), post.
  now rewrite <- app_assoc.
Qed.

Lemma infix_trans a b c : infix a b -> infix b c -> infix a c.
Proof.
  intros [p1 [q1 ->]] [p2 [q2 ->]]. exists (p2 ++ p1), (q1 ++ q2).
  now rewrite <- !app_assoc.
Qed.

Lemma infix_join sep parts x : In x parts -> infix x (join sep parts).
Proof.
  induction parts as [| p rest IH]; intros Hin; [contradiction |].
  destruct rest as [| q rest].
  - destruct Hin as [-> | []]. apply infix_refl.
  - change (join sep (p :: q :: rest)) with (p ++ sep ++ join sep (q :: rest)).
    destruct Hin as [-> | Hin].
    + apply infix_head.
    + do 2 apply infix_skip. now apply IH.
Qed.

Ltac find_infix :=
  first [ apply infix_head | apply infix_skip; find_infix ].

Lemma chairman_prompt_embeds_query q t1 t2 :
  infix q (make_chairman_prompt q t1 t2).
Proof. unfold make_chairman_prompt. find_infix. Qed.

Lemma chairman_prompt_embeds_stage1 q t1 t2 :
  infix t1 (make_chairman_prompt q t1 t2).
Proof.
  unfold make_chairman_prompt. do 6 apply infix_skip. find_infix.
Qed.

Lemma chairman_prompt_embeds_stage2 q t1 t2 :
  infix t2 (make_chairman_prompt q t1 t2).
Proof.
  unfold make_chairman_prompt. do 11 apply infix_skip. find_infix.
Qed.

(** C8.  For a non-empty Stage-1 list, stage 3 makes exactly one invocation,
    of the chairman, with one user message whose text embeds the query, the
    "Model: ... Response: ..." pair of every Stage-1 result and the
    "Model: ... Ranking: ..." pair of every Stage-2 result with its raw
    ranking text; the text does not depend on the parsed rankings; stage 3
    returns an update that assigns the Stage-3 result and nothing else; that
    result is tagged with the chairman's identifier and on a successful
    invocation carries the chairman's text. *)
Theorem stage3_prompt_embeds_all_and_returns_chairman (inv : Invoker)
  (n : nat) (state : CouncilState) :
  stage1_results state <> [] ->
  exists prompt result,
    run_from inv n (stage3_node state) =
      (Returned
         {| upd_stage1_results := None;
            upd_stage2_results := None;
            upd_label_to_model := None;
            upd_stage3_result := Some result;
            upd_metadata := None |},
       [CallSingle CHAIRMAN_MODEL [ {| role := lit "user"; content := prompt |} ]]) /\
    infix (user_query state) prompt /\
    (forall r, In r (stage1_results state) ->
               infix (lit "Model: " ++ s1_model r ++ nl
                      ++ lit "Response: " ++ s1_response r) prompt) /\
    (forall r, In r (stage2_results state) ->
               infix (lit "Model: " ++ s2_model r ++ nl
                      ++ lit "Ranking: " ++ s2_ranking r) prompt) /\
    (forall state',
        user_query state' = user_query state ->
        stage1_results state' = stage1_results state ->
        map (fun r => (s2_model r, s2_ranking r)) (stage2_results state')
        = map (fun r => (s2_model r, s2_ranking r)) (stage2_results state) ->
        stage3_prompt state' = prompt) /\
    s3_model result = CHAIRMAN_MODEL /\
    (forall response,
        answer_single inv n CHAIRMAN_MODEL
          [ {| role := lit "user"; content := prompt |} ] = Some response ->
        result = {| s3_model := CHAIRMAN_MODEL;
                    s3_response := get_default response (lit "content") [] |}).
Proof.
  intros Hne. exists (stage3_prompt state). eexists.
  split; [| split; [| split; [| split; [| split; [| split]]]]].
  - rewrite (stage3_run inv n state Hne). reflexivity.
  - unfold stage3_prompt. apply chairman_prompt_embeds_query.
  - intros r Hin.
    unfold stage3_prompt.
    eapply infix_trans; [| apply chairman_prompt_embeds_stage1].
    apply infix_join.
    apply (in_map (fun result =>
                     lit "Model: " ++ s1_model result ++ nl
                     ++ lit "Response: " ++ s1_response result)) in Hin.
    exact Hin.
  - intros r Hin.
    unfold stage3_prompt.
    eapply infix_trans; [| apply chairman_prompt_embeds_stage2].
    apply infix_join.
    apply (in_map (fun result =>
                     lit "Model: " ++ s2_model result ++ nl
                     ++ lit "Ranking: " ++ s2_ranking result)) in Hin.
    exact Hin.
  - intros state' Hq H1 H2. unfold stage3_prompt. rewrite Hq, H1.
    f_equal. unfold make_stage2_text. f_equal.
    apply (f_equal (map (fun mr : str * str =>
                           lit "Model: " ++ fst mr ++ nl
                           ++ lit "Ranking: " ++ snd mr))) in H2.
    rewrite !map_map in H2. exact H2.
  - now destruct (answer_single inv n CHAIRMAN_MODEL _).
  - intros response Hanswer. unfold user_message.
    now rewrite Hanswer.
Qed.

(** ** The ranking parser *)

Lemma starts_with_iff p s :
  starts_with p s = true <-> exists rest, s = p ++ rest.
Proof.
  revert s. induction p as [| a p IH]; intros s; simpl.
  - split; [intros _; now exists s | reflexivity].
  - destruct s as [| b s].
    + split; [discriminate | intros [rest H]; discriminate].
    + rewrite andb_true_iff, N.eqb_eq, IH. split.
      * intros [-> [rest ->]]. now exists rest.
      * intros [rest H]. inversion H; subst. split; [reflexivity |].
        now exists rest.
Qed.

Lemma skipn_prefix (p rest : str) : skipn (length p) (p ++ rest) = rest.
Proof. induction p as [| a p IH]; simpl; [reflexivity | exact IH]. Qed.

Lemma after_first_None p s :
  Utils.after_first p s = None <-> ~ infix p s.
Proof.
  induction s as [| c s IH]; simpl.
  - destruct (starts_with p []) eqn:E.
    + split; [discriminate |]. intros H. exfalso. apply H.
      apply starts_with_iff in E. destruct E as [rest E].
      now exists [], rest.
    + split; [| reflexivity]. intros _ [pre [post H]].
      destruct pre; [| discriminate]. simpl in H.
      assert (E' : starts_with p [] = true)
        by (apply starts_with_iff; now exists post).
      congruence.
  - destruct (starts_with p (c :: s)) eqn:E.
    + split; [discriminate |]. intros H. exfalso. apply H.
      apply starts_with_iff in E. destruct E as [rest E].
      now exists [], rest.
    + rewrite IH. split.
      * intros Hs [pre [post H]]. destruct pre as [| c' pre].
        -- simpl in H.
           assert (E' : starts_with p (c :: s) = true)
             by (apply starts_with_iff; now exists post).
           congruence.
        -- inversion H; subst. apply Hs. now exists pre, post.
      * intros Hcs [pre [post H]]. apply Hcs.
        exists (c :: pre), post. now rewrite H.
Qed.

Lemma prefix_shorten (p x y rest : str) :
  x ++ y = p ++ rest -> length p <= length x -> exists rest', x = p ++ rest'.
Proof.
  revert x. induction p as [| a p IH]; intros x H Hlen.
  - now exists x.
  - destruct x as [| b x]; [simpl in Hlen; lia |].
    simpl in H. inversion H; subst.
    destruct (IH x H2) as [rest' ->]; [simpl in Hlen; lia |].
    now exists rest'.
Qed.

Lemma after_first_first p pre post :
  p <> [] ->
  ~ infix p (pre ++ removelast p) ->
  Utils.after_first p (pre ++ p ++ post) = Some post.
Proof.
  intros Hp. induction pre as [| c pre IH]; intros Hfirst.
  - simpl app.
    assert (E : starts_with p (p ++ post) = true)
      by (apply starts_with_iff; now exists post).
    destruct p as [| a p]; [contradiction |].
    simpl in *. rewrite E. now rewrite skipn_prefix.
  - simpl app. simpl.
    destruct (starts_with p (c :: pre ++ p ++ post)) eqn:E.
    + exfalso. apply Hfirst.
      apply starts_with_iff in E. destruct E as [rest E].
      rewrite (app_removelast_last 0%N Hp) in E at 1.
      rewrite <- (app_assoc (removelast p)) in E.
      change (c :: pre ++ removelast p ++ [last p 0%N] ++ post)
        with ((c :: pre) ++ removelast p ++ [last p 0%N] ++ post) in E.
      rewrite (app_assoc (c :: pre)) in E.
      apply prefix_shorten in E.
      * destruct E as [rest' E]. exists [], rest'. exact E.
      * assert (Hlen : length p = length (removelast p) + 1).
        { rewrite (app_removelast_last 0%N Hp) at 1.
          now rewrite length_app. }
        rewrite length_app. simpl. lia.
    + apply IH. intros [pre' [post' H]]. apply Hfirst.
      exists (c :: pre'), post'. simpl. now rewrite H.
Qed.

Lemma drop_digits_app ds r :
  forallb Utils.is_digit ds = true ->
  match r with [] => True | x :: _ => Utils.is_digit x = false end ->
  Utils.drop_digits (ds ++ r) = r.
Proof.
  intros Hds Hr. induction ds as [| d ds IH]; simpl.
  - destruct r as [| x r]; [reflexivity |]. simpl. now rewrite Hr.
  - simpl in Hds. apply andb_true_iff in Hds. destruct Hds as [Hd Hds].
    rewrite Hd. now apply IH.
Qed.

Lemma drop_digits_split s :
  exists ds, forallb Utils.is_digit ds = true /\ s = ds ++ Utils.drop_digits s.
Proof.
  induction s as [| c s [ds [Hds Hs]]]; simpl.
  - now exists [].
  - destruct (Utils.is_digit c) eqn:E.
    + exists (c :: ds). simpl. rewrite E, Hds. split; [reflexivity |].
      now rewrite <- Hs.
    + now exists [].
Qed.

Lemma match_line_iff line letter :
  Utils.match_line line = Some letter <->
  exists ordinal c,
    ordinal <> [] /\
    forallb Utils.is_digit ordinal = true /\
    Utils.is_upper c = true /\
    letter = [c] /\
    line = ordinal ++ lit ". Response " ++ [c].
Proof.
  split.
  - unfold Utils.match_line. destruct line as [| d rest]; [discriminate |].
    destruct (Utils.is_digit d) eqn:Ed; [| discriminate].
    destruct (drop_digits_split rest) as [ds [Hds Hrest]].
    destruct (starts_with (lit ". Response ") (Utils.drop_digits rest)) eqn:Es;
      [| discriminate].
    apply starts_with_iff in Es. destruct Es as [tail Es].
    rewrite Es, skipn_prefix.
    destruct tail as [| c [| c' tail]]; try discriminate.
    destruct (Utils.is_upper c) eqn:Ec; [| discriminate].
    intros H. inversion H; subst letter.
    exists (d :: ds), c. repeat split.
    + discriminate.
    + simpl. now rewrite Ed, Hds.
    + exact Ec.
    + rewrite <- Es. cbn [app]. now rewrite <- Hrest.
  - intros [ordinal [c [Hne [Hds [Hc [-> ->]]]]]].
    destruct ordinal as [| d ds]; [contradiction |].
    simpl in Hds. apply andb_true_iff in Hds. destruct Hds as [Hd Hds].
    change ((d :: ds) ++ lit ". Response " ++ [c])
      with (d :: (ds ++ lit ". Response " ++ [c])).
    unfold Utils.match_line. rewrite Hd.
    rewrite drop_digits_app by (assumption || reflexivity).
    assert (E : starts_with (lit ". Response ") (lit ". Response " ++ [c]) = true)
      by (apply starts_with_iff; now exists [c]).
    rewrite E, skipn_prefix. now rewrite Hc.
Qed.

Lemma join_split_lines text : join nl (Utils.split_lines text) = text.
Proof.
  induction text as [| c text IH]; [reflexivity |].
  simpl. destruct (c =? 10)%N eqn:E.
  - apply N.eqb_eq in E. subst c.
    destruct (Utils.split_lines text) as [| line lines] eqn:El.
    + simpl in IH. now subst text.
    + change (join nl ([] :: line :: lines))
        with ([] ++ nl ++ join nl (line :: lines)).
      now rewrite IH.
  - destruct (Utils.split_lines text) as [| line lines] eqn:El.
    + simpl in IH. now subst text.
    + destruct lines as [| line' lines]; simpl in *; now rewrite IH.
Qed.

Lemma split_lines_no_newline text :
  Forall (fun line => ~ In 10%N line) (Utils.split_lines text).
Proof.
  induction text as [| c text IH]; simpl.
  - constructor; [intros [] | constructor].
  - destruct (c =? 10)%N eqn:E.
    + constructor; [intros [] | exact IH].
    + apply N.eqb_neq in E.
      destruct (Utils.split_lines text) as [| line lines].
      * constructor; [| constructor]. intros [H | []]. congruence.
      * inversion IH; subst. constructor; [| assumption].
        intros [H | H]; [congruence | contradiction].
Qed.

(** C4.  Without the marker "FINAL RANKING:" the parser returns the empty
    sequence; with it, the parser reads only the text after the marker's
    first occurrence and returns, in order, the letter of every line of the
    form "<ordinal>. Response <Letter>" (one or more digits, an uppercase
    letter), skipping the other lines; on the two sample texts it returns
    ["B", "A"] and []. *)
Theorem parse_ranking_from_text_spec :
  (forall text,
      ~ infix Utils.MARKER text -> Utils.parse_ranking_from_text text = []) /\
  (forall pre post,
      ~ infix Utils.MARKER (pre ++ removelast Utils.MARKER) ->
      Utils.parse_ranking_from_text (pre ++ Utils.MARKER ++ post)
      = Utils.ranked_letters (Utils.split_lines post)) /\
  (forall line lines,
      Utils.ranked_letters (line :: lines) =
      match Utils.match_line line with
      | Some letter => letter :: Utils.ranked_letters lines
      | None => Utils.ranked_letters lines
      end) /\
  (forall line letter,
      Utils.match_line line = Some letter <->
      exists ordinal c,
        ordinal <> [] /\
        forallb Utils.is_digit ordinal = true /\
        Utils.is_upper c = true /\
        letter = [c] /\
        line = ordinal ++ lit ". Response " ++ [c]) /\
  Utils.parse_ranking_from_text
    (lit "... FINAL RANKING:" ++ nl ++ lit "1. Response B" ++ nl
     ++ lit "2. Response A" ++ nl)
  = [lit "B"; lit "A"] /\
  Utils.parse_ranking_from_text (lit "no marker here") = [].
Proof.
  split; [| split; [| split; [| split; [| split]]]].
  - intros text H. unfold Utils.parse_ranking_from_text.
    apply after_first_None in H. now rewrite H.
  - intros pre post H. unfold Utils.parse_ranking_from_text.
    rewrite after_first_first; [reflexivity | discriminate | exact H].
  - reflexivity.
  - apply match_line_iff.
  - vm_compute. reflexivity.
  - vm_compute. reflexivity.
Qed.

(** ** The rank aggregator *)

Lemma Qplus_swap (a b c : Q) : (a + (b + c))%Q = (b + (a + c))%Q.
Proof.
  destruct a as [a x], b as [b y], c as [c z].
  unfold Qplus. cbn [Qnum Qden]. f_equal.
  - rewrite !Pos2Z.inj_mul. ring.
  - lia.
Qed.

Lemma total_Permutation (s s' : list Q) :
  Permutation s s' -> Utils.total s = Utils.total s'.
Proof.
  unfold Utils.total.
  induction 1 as [| q s s' _ IH | p q s | s s' s'' _ IH1 _ IH2]; simpl.
  - reflexivity.
  - now rewrite IH.
  - apply Qplus_swap.
  - now rewrite IH1.
Qed.

Lemma filter_Permutation {A} (f : A -> bool) (l l' : list A) :
  Permutation l l' -> Permutation (filter f l) (filter f l').
Proof.
  induction 1 as [| x l l' _ IH | x y l | l l' l'' _ IH1 _ IH2]; simpl.
  - constructor.
  - destruct (f x); [now constructor | exact IH].
  - destruct (f x), (f y); try apply Permutation_refl. apply perm_swap.
  - now transitivity (filter f l').
Qed.

Section AggregatorFacts.

Variable transform : nat -> Q.
Variable penalty : nat -> list str -> option Q.
Variable average : bool.

Lemma label_scores_Permutation rs rs' n label :
  Permutation rs rs' ->
  Permutation (Utils.label_scores transform penalty rs n label)
              (Utils.label_scores transform penalty rs' n label).
Proof.
  intros H. unfold Utils.label_scores.
  apply Permutation_flat_map. now apply filter_Permutation.
Qed.

Lemma entry_Permutation model (s s' : list Q) :
  Permutation s s' -> Utils.entry average model s = Utils.entry average model s'.
Proof.
  intros H. destruct s as [| q s], s' as [| q' s'].
  - reflexivity.
  - apply Permutation_nil in H. discriminate.
  - apply Permutation_sym, Permutation_nil in H. discriminate.
  - unfold Utils.entry, Utils.aggregate_score.
    rewrite (total_Permutation H), (Permutation_length H). reflexivity.
Qed.

(** C5.  Whatever the scoring policy, feeding the aggregator a permutation
    of the Stage-2 results, with the same label map, yields the same
    aggregate ranking. *)
Theorem aggregate_rankings_permutation_invariant
  (stage2_results permuted : list StageTwoResult) (label_to_model : dict str) :
  Permutation stage2_results permuted ->
  Utils.calculate_aggregate_rankings transform penalty average
    permuted label_to_model
  = Utils.calculate_aggregate_rankings transform penalty average
      stage2_results label_to_model.
Proof.
  intros H. unfold Utils.calculate_aggregate_rankings. f_equal.
  apply flat_map_ext. intros [label model].
  apply entry_Permutation, Permutation_sym.
  now apply label_scores_Permutation.
Qed.

End AggregatorFacts.

(** * Concrete runs *)

Example parse_marker_is_case_sensitive :
  Utils.parse_ranking_from_text
    (lit "final ranking:" ++ nl ++ lit "1. Response A")
  = [].
Proof. vm_compute. reflexivity. Qed.

Example parse_reads_after_first_marker :
  Utils.parse_ranking_from_text
    (lit "notes" ++ nl ++ lit "FINAL RANKING:" ++ nl ++ lit "1. Response C"
     ++ nl ++ lit "not a ranking line" ++ nl ++ lit "FINAL RANKING:" ++ nl
     ++ lit "12. Response A")
  = [lit "C"; lit "A"].
Proof. vm_compute. reflexivity. Qed.

Example graph_when_every_model_fails :
  run all_fail
    (create_council_graph Utils.parse_ranking_from_text Utils.average_rank
       (state_with []))
  = (Returned
       {| user_query := lit "Q";
          stage1_results := [];
          stage2_results := [];
          label_to_model := [];
          stage3_result :=
            {| s3_model := lit "error";
               s3_response := lit "No responses to synthesize." |};
          metadata := [ (lit "error", MetaText (lit "No stage 1 results")) ] |},
     [CallParallel COUNCIL_MODELS (user_message (lit "Q"))]).
Proof. vm_compute. reflexivity. Qed.

Example average_rank_one_ranking :
  Utils.average_rank [ranks_AB] two_labels
  = [ (lit "M1", 1%Q); (lit "M2", 2%Q) ].
Proof. vm_compute. reflexivity. Qed.

Lemma stage2_label_map_bijection_witness :
  stage1_results (state_with [answer_one; answer_two]) <> [] /\
  length (stage1_results (state_with [answer_one; answer_two])) <= 26 /\
  exists update calls l2m,
    run_from all_fail 0
      (stage2_node Utils.parse_ranking_from_text Utils.average_rank
         (state_with [answer_one; answer_two]))
      = (Returned update, calls) /\
    upd_label_to_model update = Some l2m /\
    keys l2m = [lit "Response A"; lit "Response B"] /\
    values l2m = [lit "M1"; lit "M2"].
Proof.
  assert (H1 : stage1_results (state_with [answer_one; answer_two]) <> [])
    by discriminate.
  assert (H2 : length (stage1_results (state_with [answer_one; answer_two])) <= 26)
    by (simpl; lia).
  split; [exact H1 | split; [exact H2 |]].
  destruct (stage2_label_map_bijection Utils.parse_ranking_from_text
              Utils.average_rank all_fail 0
              (state_with [answer_one; answer_two]) H1 H2)
    as [update [calls [l2m [Hrun [Hmap [Hkeys [Hvalues _]]]]]]].
  exists update, calls, l2m.
  split; [exact Hrun | split; [exact Hmap | split]].
  - exact Hkeys.
  - exact Hvalues.
Defined.

Lemma stage2_empty_short_circuits_witness :
  stage1_results (state_with []) = [] /\
  run_from all_fail 0
    (stage2_node Utils.parse_ranking_from_text Utils.average_rank
       (state_with []))
  = (Returned
       {| upd_stage1_results := None;
          upd_stage2_results := Some [];
          upd_label_to_model := Some [];
          upd_stage3_result := None;
          upd_metadata :=
            Some [ (lit "error", MetaText (lit "No stage 1 results")) ] |},
     []).
Proof.
  split; [reflexivity |].
  apply (stage2_empty_short_circuits Utils.parse_ranking_from_text
           Utils.average_rank all_fail 0 (state_with [])).
  reflexivity.
Defined.

Lemma stage3_empty_returns_error_sentinel_witness :
  stage1_results (state_with []) = [] /\
  run_from all_fail 0 (stage3_node (state_with []))
  = (Returned
       (stage3_update
          {| s3_model := lit "error";
             s3_response := lit "No responses to synthesize." |}),
     []).
Proof.
  split; [reflexivity |].
  apply (proj1 (stage3_empty_returns_error_sentinel
                  Utils.parse_ranking_from_text Utils.average_rank all_fail)
           0 (state_with [])).
  reflexivity.
Defined.

Lemma parse_ranking_from_text_spec_witness :
  ~ infix Utils.MARKER (lit "no marker here") /\
  Utils.parse_ranking_from_text (lit "no marker here") = [].
Proof.
  assert (H : ~ infix Utils.MARKER (lit "no marker here")).
  { apply after_first_None. vm_compute. reflexivity. }
  split; [exact H |].
  apply (proj1 parse_ranking_from_text_spec (lit "no marker here") H).
Defined.

Lemma aggregate_rankings_permutation_invariant_witness :
  Permutation [ranks_AB; ranks_BA] [ranks_BA; ranks_AB] /\
  Utils.average_rank [ranks_BA; ranks_AB] two_labels
  = Utils.average_rank [ranks_AB; ranks_BA] two_labels.
Proof.
  split; [apply perm_swap |].
  apply (aggregate_rankings_permutation_invariant
           Utils.position_score Utils.no_penalty true
           two_labels (perm_swap ranks_BA ranks_AB [])).
Defined.

Lemma stage1_one_result_per_success_witness :
  exists results,
    run_from chairman_down 0 (stage1_node (state_with []))
    = (Returned (stage1_update results),
       [CallParallel COUNCIL_MODELS (user_message (lit "Q"))]) /\
    length results = length COUNCIL_MODELS.
Proof.
  destruct (stage1_one_result_per_success chairman_down 0 (state_with []))
    as [results [Hrun [_ [_ [_ [_ [_ Hsize]]]]]]].
  exists results. split; [exact Hrun |].
  apply Hsize.
  - intros item Hin. simpl in Hin.
    destruct Hin as [<- | [<- | [<- | [<- | []]]]]; discriminate.
  - apply Permutation_refl.
Defined.

Lemma stage3_chairman_failure_sentinel_witness :
  stage1_results (state_with [answer_one]) <> [] /\
  answer_single chairman_down 0 CHAIRMAN_MODEL
    (user_message (stage3_prompt (state_with [answer_one]))) = None /\
  run_from chairman_down 0 (stage3_node (state_with [answer_one]))
  = (Returned
       (stage3_update
          {| s3_model := CHAIRMAN_MODEL;
             s3_response := lit "Error: Synthesis failed." |}),
     [CallSingle CHAIRMAN_MODEL
        (user_message (stage3_prompt (state_with [answer_one])))]).
Proof.
  assert (H1 : stage1_results (state_with [answer_one]) <> []) by discriminate.
  split; [exact H1 | split; [reflexivity |]].
  apply (proj1 (stage3_chairman_failure_sentinel
                  Utils.parse_ranking_from_text Utils.average_rank
                  chairman_down) 0 (state_with [answer_one]) H1).
  reflexivity.
Defined.

Lemma stage3_prompt_embeds_all_and_returns_chairman_witness :
  stage1_results deliberated_state <> [] /\
  exists prompt,
    run_from all_answer 0 (stage3_node deliberated_state)
    = (Returned
         {| upd_stage1_results := None;
            upd_stage2_results := None;
            upd_label_to_model := None;
            upd_stage3_result :=
              Some {| s3_model := CHAIRMAN_MODEL;
                      s3_response := lit "synthesis" |};
            upd_metadata := None |},
       [CallSingle CHAIRMAN_MODEL
          [ {| role := lit "user"; content := prompt |} ]]) /\
    infix (lit "Q") prompt /\
    infix (lit "Model: " ++ lit "M1" ++ nl ++ lit "Response: "
           ++ lit "first answer") prompt /\
    infix (lit "Model: " ++ lit "M2" ++ nl ++ lit "Response: "
           ++ lit "second answer") prompt /\
    infix (lit "Model: " ++ lit "M1" ++ nl ++ lit "Ranking: "
           ++ s2_ranking ranked_one) prompt /\
    infix (lit "Model: " ++ lit "M2" ++ nl ++ lit "Ranking: "
           ++ s2_ranking ranked_two) prompt.
Proof.
  assert (H1 : stage1_results deliberated_state <> []) by discriminate.
  split; [exact H1 |].
  destruct (stage3_prompt_embeds_all_and_returns_chairman all_answer 0
              deliberated_state H1)
    as [prompt [result [Hrun [Hq [Hs1 [Hs2 [_ [_ Hres]]]]]]]].
  exists prompt.
  split; [| split; [exact Hq | split; [| split; [| split]]]].
  - rewrite Hrun. rewrite (Hres _ eq_refl). reflexivity.
  - apply (Hs1 answer_one). left. reflexivity.
  - apply (Hs1 answer_two). right. left. reflexivity.
  - apply (Hs2 ranked_one). left. reflexivity.
  - apply (Hs2 ranked_two). right. left. reflexivity.
Defined.

Lemma missing_content_is_empty_text_witness :
  stage1_results deliberated_state <> [] /\
  answer_single no_content 0 CHAIRMAN_MODEL
    (user_message (stage3_prompt deliberated_state))
  = Some [(lit "id", lit "x")] /\
  dict_get (lit "content") [(lit "id", lit "x")] = None /\
  run_from no_content 0 (stage3_node deliberated_state)
  = (Returned
       {| upd_stage1_results := None;
          upd_stage2_results := None;
          upd_label_to_model := None;
          upd_stage3_result :=
            Some {| s3_model := CHAIRMAN_MODEL; s3_response := [] |};
          upd_metadata := None |},
     [CallSingle CHAIRMAN_MODEL
        (user_message (stage3_prompt deliberated_state))]) /\
  In (CHAIRMAN_MODEL, Some [(lit "id", lit "x")])
     (answer_parallel no_content 0 COUNCIL_MODELS
        (user_message (user_query deliberated_state))) /\
  exists results calls,
    run_from no_content 0 (stage1_node deliberated_state)
      = (Returned (stage1_update results), calls) /\
    In {| s1_model := CHAIRMAN_MODEL; s1_response := [] |} results.
Proof.
  assert (H1 : stage1_results deliberated_state <> []) by discriminate.
  assert (H2 : dict_get (lit "content") [(lit "id", lit "x")] = None)
    by (vm_compute; reflexivity).
  assert (H3 : In (CHAIRMAN_MODEL, Some [(lit "id", lit "x")])
                  (answer_parallel no_content 0 COUNCIL_MODELS
                     (user_message (user_query deliberated_state))))
    by (left; reflexivity).
  split; [exact H1 | split; [reflexivity | split; [exact H2 | split; [| split]]]].
  - apply (proj2 (proj2 (missing_content_is_empty_text
                           Utils.parse_ranking_from_text Utils.average_rank
                           no_content 0 deliberated_state))
             [(lit "id", lit "x")] H1 eq_refl H2).
  - exact H3.
  - apply (proj1 (missing_content_is_empty_text
                    Utils.parse_ranking_from_text Utils.average_rank
                    no_content 0 deliberated_state)
             CHAIRMAN_MODEL [(lit "id", lit "x")] H3 H2).
Defined.

(** * Further properties of the workflow *)

(** ** Runs of the graph, case by case *)

Lemma after_stage1_results inv state :
  stage1_results (after_stage1 inv state)
  = map to_stage1 (succeeded (stage1_answer inv state)).
Proof.
  unfold after_stage1.
  cbn [merge stage1_results stage1_update upd_stage1_results or_keep].
  apply collect_stage1_succeeded.
Qed.

Lemma after_stage1_query inv state :
  user_query (after_stage1 inv state) = user_query state.
Proof. reflexivity. Qed.

Lemma graph_run_raised parse aggregate inv state e c2 :
  run_from inv 1 (stage2_node parse aggregate (after_stage1 inv state))
    = (Raised e, c2) ->
  run inv (create_council_graph parse aggregate state) =
  (Raised e,
   CallParallel COUNCIL_MODELS (user_message (user_query state)) :: c2).
Proof.
  intros H2. unfold run, create_council_graph.
  rewrite run_from_bind, stage1_run. cbn [length Nat.add].
  fold (stage1_answer inv state). fold (after_stage1 inv state).
  rewrite run_from_bind, H2. reflexivity.
Qed.

Lemma graph_run_empty parse aggregate inv state :
  succeeded (stage1_answer inv state) = [] ->
  run inv (create_council_graph parse aggregate state) =
  (Returned
     (merge (merge (after_stage1 inv state) stage2_skipped)
        (stage3_update error_sentinel)),
   [CallParallel COUNCIL_MODELS (user_message (user_query state))]).
Proof.
  intros Hnone.
  assert (H1 : stage1_results (after_stage1 inv state) = [])
    by now rewrite after_stage1_results, Hnone.
  pose proof (stage2_run_empty parse aggregate inv 1 (after_stage1 inv state) H1)
    as H2.
  assert (H1' : stage1_results (merge (after_stage1 inv state) stage2_skipped) = [])
    by exact H1.
  pose proof (stage3_run_empty inv (1 + length (@nil Call)) _ H1') as H3.
  apply (graph_run parse aggregate inv state H2 H3).
Qed.

Lemma graph_run_full parse aggregate inv state labels :
  succeeded (stage1_answer inv state) <> [] ->
  make_labels (length (stage1_results (after_stage1 inv state))) = Some labels ->
  run inv (create_council_graph parse aggregate state) =
  (Returned
     (merge (after_stage2 parse aggregate inv state labels)
        (stage3_update (stage3_outcome parse aggregate inv state labels))),
   [ CallParallel COUNCIL_MODELS (user_message (user_query state));
     CallParallel COUNCIL_MODELS
       (user_message (stage2_prompt (after_stage1 inv state) labels));
     CallSingle CHAIRMAN_MODEL
       (user_message
          (stage3_prompt (after_stage2 parse aggregate inv state labels))) ]).
Proof.
  intros Hsome Hlabels.
  assert (H1 : stage1_results (after_stage1 inv state) <> []).
  { rewrite after_stage1_results.
    destruct (succeeded (stage1_answer inv state));
      [contradiction | discriminate]. }
  pose proof (stage2_run parse aggregate inv 1 (after_stage1 inv state)
                H1 Hlabels) as H2.
  assert (H1' : stage1_results (after_stage2 parse aggregate inv state labels)
                <> []) by exact H1.
  pose proof (stage3_run inv 2 _ H1') as H3.
  apply (graph_run parse aggregate inv state H2 H3).
Qed.

Lemma graph_run_oversized parse aggregate inv state :
  succeeded (stage1_answer inv state) <> [] ->
  make_labels (length (stage1_results (after_stage1 inv state))) = None ->
  run inv (create_council_graph parse aggregate state) =
  (Raised ValueError,
   [CallParallel COUNCIL_MODELS (user_message (user_query state))]).
Proof.
  intros Hsome Hlabels.
  assert (H1 : stage1_results (after_stage1 inv state) <> []).
  { rewrite after_stage1_results.
    destruct (succeeded (stage1_answer inv state));
      [contradiction | discriminate]. }
  apply graph_run_raised.
  now apply stage2_run_raises.
Qed.

Lemma make_labels_inv n labels :
  make_labels n = Some labels ->
  (N.of_nat n <= 1114047)%N /\ labels = map label_at (seq 0 n).
Proof.
  intros H. destruct (N.le_gt_cases (N.of_nat n) 1114047) as [Hle | Hgt].
  - split; [exact Hle |]. rewrite make_labels_Some in H by exact Hle.
    now inversion H.
  - rewrite make_labels_None in H by exact Hgt. discriminate.
Qed.

Lemma after_stage1_length inv state :
  length (stage1_results (after_stage1 inv state))
  = length (succeeded (stage1_answer inv state)).
Proof. now rewrite after_stage1_results, length_map. Qed.

(** ** Stage 2: labels and their ceiling *)

Section Stage2Bounds.

Variable parse : str -> list str.
Variable aggregate : list StageTwoResult -> dict str -> AggregateRanking.

(** X1.  Stage 2 raises [ValueError] exactly when the Stage-1 list has more
    than 1114047 results, and it does so before invoking any model; on every
    shorter list, the empty one included, it returns after at most one
    dispatch. *)
Theorem stage2_raises_exactly_when_oversized (inv : Invoker) (n : nat)
  (state : CouncilState) :
  ((1114047 < N.of_nat (length (stage1_results state)))%N ->
   run_from inv n (stage2_node parse aggregate state) = (Raised ValueError, []))
  /\
  ((N.of_nat (length (stage1_results state)) <= 1114047)%N ->
   exists update calls,
     run_from inv n (stage2_node parse aggregate state)
       = (Returned update, calls) /\
     length calls <= 1).
Proof.
  split.
  - intros Hgt. apply stage2_run_raises.
    + intros H. rewrite H in Hgt. cbn [length] in Hgt. lia.
    + now apply make_labels_None.
  - intros Hle. destruct (stage1_results state) as [| r rs] eqn:E.
    + eexists. exists []. split; [now apply stage2_run_empty | cbn [length]; lia].
    + assert (Hne : stage1_results state <> []) by (rewrite E; discriminate).
      rewrite <- E in Hle. apply make_labels_Some in Hle.
      eexists. eexists. split.
      * apply (stage2_run parse aggregate inv n state Hne Hle).
      * cbn [length]. lia.
Qed.

(** X3.  For every non-empty Stage-1 list that stage 2 accepts, also one of
    more than 26 results, the label map has one entry per result, no key
    occurs twice, its models are the Stage-1 models in order, and the key of
    position [i], "Response " followed by the character of code point
    [65 + i], looks up the model of the [i]-th result. *)
Theorem stage2_label_map_has_no_collision (inv : Invoker) (n : nat)
  (state : CouncilState) :
  stage1_results state <> [] ->
  (N.of_nat (length (stage1_results state)) <= 1114047)%N ->
  exists update calls l2m,
    run_from inv n (stage2_node parse aggregate state)
      = (Returned update, calls) /\
    upd_label_to_model update = Some l2m /\
    length l2m = length (stage1_results state) /\
    NoDup (keys l2m) /\
    values l2m = map s1_model (stage1_results state) /\
    (forall i r,
        nth_error (stage1_results state) i = Some r ->
        dict_get (lit "Response " ++ [N.of_nat (65 + i)]) l2m
        = Some (s1_model r)).
Proof.
  intros Hne Hlen.
  set (results := stage1_results state) in *.
  set (len := length results) in *.
  pose proof (make_labels_Some _ Hlen) as Hlabels.
  set (l2m := combine (map key_at (seq 0 len)) (map s1_model results)).
  assert (Hlens : length (map key_at (seq 0 len)) = length (map s1_model results)).
  { now rewrite !length_map, length_seq. }
  assert (Hkeys : keys l2m = map key_at (seq 0 len)).
  { unfold keys, l2m. now apply combine_keys. }
  assert (Hnd : NoDup (keys l2m)).
  { rewrite Hkeys. apply NoDup_key_at, seq_NoDup. }
  eexists. eexists. exists l2m.
  split; [| split; [| split; [| split; [| split]]]].
  - apply (stage2_run parse aggregate inv n state Hne Hlabels).
  - unfold stage2_returns. cbn [upd_label_to_model]. f_equal.
    apply label_map_shape.
  - unfold l2m. rewrite length_combine, !length_map, length_seq.
    fold len. apply Nat.min_id.
  - exact Hnd.
  - unfold values, l2m. now apply combine_values.
  - intros i r Hr.
    assert (Hi : i < len).
    { apply nth_error_Some. fold results. congruence. }
    change (lit "Response " ++ [N.of_nat (65 + i)]) with (key_at i).
    apply (dict_get_nth l2m i Hnd).
    apply nth_error_combine. split.
    + now apply nth_error_key_at.
    + now apply map_nth_error.
Qed.

End Stage2Bounds.

(** X2.  The labels exist exactly up to 1114047 results; when they do there
    is one label per position, no two are equal, the label of position [i]
    is the single character of code point [65 + i], and that character is an
    uppercase letter A-Z exactly for the first 26 positions. *)
Theorem labels_are_distinct_characters (n : nat) :
  (make_labels n <> None <-> (N.of_nat n <= 1114047)%N) /\
  (forall labels,
      make_labels n = Some labels ->
      length labels = n /\
      NoDup labels /\
      forall i, i < n ->
        nth_error labels i = Some [N.of_nat (65 + i)] /\
        ((65 <= N.of_nat (65 + i) <= 90)%N <-> i < 26)).
Proof.
  split.
  - split.
    + intros H. destruct (N.le_gt_cases (N.of_nat n) 1114047) as [Hle | Hgt];
        [exact Hle |].
      exfalso. apply H. now apply make_labels_None.
    + intros Hle. rewrite make_labels_Some by exact Hle. discriminate.
  - intros labels H. apply make_labels_inv in H. destruct H as [_ ->].
    split; [now rewrite length_map, length_seq | split].
    + assert (Hinj : forall l, NoDup l -> NoDup (map label_at l)).
      { induction 1 as [| i l Hi Hl IH]; simpl; constructor; [| exact IH].
        intros Hin. apply in_map_iff in Hin. destruct Hin as [j [Hj Hin]].
        unfold label_at in Hj. apply (f_equal (hd 0%N)) in Hj.
        cbn [hd] in Hj. assert (j = i) by lia. now subst. }
      apply Hinj, seq_NoDup.
    + intros i Hi. split.
      * rewrite nth_error_map, nth_error_seq.
        apply Nat.ltb_lt in Hi. now rewrite Hi.
      * lia.
Qed.

(** ** Stage 2: the ranking prompt and the rankings *)

Lemma ranking_prompt_embeds_query q rt : infix q (make_ranking_prompt q rt).
Proof. unfold make_ranking_prompt. find_infix. Qed.

Lemma ranking_prompt_embeds_responses q rt :
  infix rt (make_ranking_prompt q rt).
Proof. unfold make_ranking_prompt. do 7 apply infix_skip. find_infix. Qed.

Lemma ranking_prompt_embeds_marker q rt :
  infix (lit "FINAL RANKING:") (make_ranking_prompt q rt).
Proof. unfold make_ranking_prompt. do 34 apply infix_skip. find_infix. Qed.

Lemma responses_text_embeds labels results label r :
  In (label, r) (combine labels results) ->
  infix (labelled_response label (s1_response r))
        (make_responses_text labels results).
Proof.
  intros Hin. unfold make_responses_text. apply infix_join.
  apply (in_map (fun lr : str * StageOneResult =>
                   let (label, result) := lr in
                   lit "Response " ++ label ++ lit ":" ++ nl
                   ++ s1_response result)) in Hin.
  exact Hin.
Qed.

Lemma responses_text_only_bodies labels results :
  make_responses_text labels results
  = join (nl ++ nl)
      (map (fun lb : str * str => labelled_response (fst lb) (snd lb))
           (combine labels (map s1_response results))).
Proof.
  unfold make_responses_text. f_equal. revert results.
  induction labels as [| l labels IH]; intros [| r results]; simpl;
    try reflexivity.
  now rewrite IH.
Qed.

Lemma text_of_present r text :
  dict_get (lit "content") r = Some text -> text_of r = text.
Proof. intros H. unfold text_of, get_default. now rewrite H. Qed.

Section Stage2Prompt.

Variable parse : str -> list str.
Variable aggregate : list StageTwoResult -> dict str -> AggregateRanking.

(** X4.  For a non-empty Stage-1 list that stage 2 accepts, the one call of
    stage 2 goes to the whole council with a single user message, whose text
    contains the query, for every position [i] the block "Response <label of
    i>:" followed on the next line by the [i]-th response, and the marker
    "FINAL RANKING:" of the answer format. *)
Theorem stage2_prompt_embeds_query_and_responses (inv : Invoker) (n : nat)
  (state : CouncilState) :
  stage1_results state <> [] ->
  (N.of_nat (length (stage1_results state)) <= 1114047)%N ->
  exists prompt,
    snd (run_from inv n (stage2_node parse aggregate state))
    = [CallParallel COUNCIL_MODELS
         [ {| role := lit "user"; content := prompt |} ]] /\
    infix (user_query state) prompt /\
    (forall i r,
        nth_error (stage1_results state) i = Some r ->
        infix (lit "Response " ++ [N.of_nat (65 + i)] ++ lit ":" ++ nl
               ++ s1_response r) prompt) /\
    infix (lit "FINAL RANKING:") prompt.
Proof.
  intros Hne Hlen. pose proof (make_labels_Some _ Hlen) as Hlabels.
  set (labels := map label_at (seq 0 (length (stage1_results state)))) in *.
  exists (stage2_prompt state labels).
  split; [| split; [| split]].
  - now rewrite (stage2_run parse aggregate inv n state Hne Hlabels).
  - unfold stage2_prompt. apply ranking_prompt_embeds_query.
  - intros i r Hr. unfold stage2_prompt.
    eapply infix_trans; [| apply ranking_prompt_embeds_responses].
    change (lit "Response " ++ [N.of_nat (65 + i)] ++ lit ":" ++ nl
            ++ s1_response r)
      with (labelled_response (label_at i) (s1_response r)).
    apply responses_text_embeds.
    apply (nth_error_In _ i). apply nth_error_combine. split; [| exact Hr].
    unfold labels. rewrite nth_error_map, nth_error_seq.
    assert (Hi : i < length (stage1_results state))
      by (apply nth_error_Some; congruence).
    apply Nat.ltb_lt in Hi. now rewrite Hi.
  - unfold stage2_prompt. apply ranking_prompt_embeds_marker.
Qed.

(** X5.  What stage 2 sends does not depend on who answered: two states with
    the same query and the same Stage-1 response texts in the same order,
    whatever the model identifiers and the other state fields, lead to the
    same invocations. *)
Theorem stage2_calls_do_not_depend_on_models (inv : Invoker) (n : nat)
  (state state' : CouncilState) :
  user_query state' = user_query state ->
  map s1_response (stage1_results state')
  = map s1_response (stage1_results state) ->
  snd (run_from inv n (stage2_node parse aggregate state'))
  = snd (run_from inv n (stage2_node parse aggregate state)).
Proof.
  intros Hq Hmap.
  assert (Hlen : length (stage1_results state') = length (stage1_results state)).
  { apply (f_equal (@length str)) in Hmap. now rewrite !length_map in Hmap. }
  destruct (stage1_results state) as [| r rs] eqn:E.
  - destruct (stage1_results state') as [| r' rs'] eqn:E'; [| discriminate].
    now rewrite !stage2_run_empty.
  - assert (Hne : stage1_results state <> []) by (rewrite E; discriminate).
    assert (Hne' : stage1_results state' <> []).
    { intros H. rewrite H in Hlen. discriminate. }
    rewrite <- E in *.
    destruct (make_labels (length (stage1_results state))) as [labels |] eqn:El.
    + assert (El' : make_labels (length (stage1_results state')) = Some labels)
        by now rewrite Hlen.
      rewrite (stage2_run parse aggregate inv n state Hne El).
      rewrite (stage2_run parse aggregate inv n state' Hne' El').
      cbn [snd]. unfold stage2_prompt.
      now rewrite Hq, !responses_text_only_bodies, Hmap.
    + assert (El' : make_labels (length (stage1_results state')) = None)
        by now rewrite Hlen.
      now rewrite !stage2_run_raises.
Qed.

(** X6.  For a non-empty Stage-1 list that stage 2 accepts, the returned
    Stage-2 list has a result for exactly the models whose ranking
    invocation succeeded; each result's parsed ranking is the parse of its
    own raw ranking text; the models are distinct when the answered mapping
    is a mapping; and there are never more results than answers. *)
Theorem stage2_results_are_the_successful_rankings (inv : Invoker) (n : nat)
  (state : CouncilState) :
  stage1_results state <> [] ->
  (N.of_nat (length (stage1_results state)) <= 1114047)%N ->
  exists labels update calls results,
    make_labels (length (stage1_results state)) = Some labels /\
    run_from inv n (stage2_node parse aggregate state)
      = (Returned update, calls) /\
    upd_stage2_results update = Some results /\
    let responses :=
      answer_parallel inv n COUNCIL_MODELS
        (user_message (stage2_prompt state labels)) in
    Forall (fun r => s2_parsed_ranking r = parse (s2_ranking r)) results /\
    (forall m, In m (map s2_model results) <->
               exists p, In (m, Some p) responses) /\
    (NoDup (keys responses) -> NoDup (map s2_model results)) /\
    length results <= length responses.
Proof.
  intros Hne Hlen. pose proof (make_labels_Some _ Hlen) as Hlabels.
  eexists. eexists. eexists. eexists.
  split; [exact Hlabels | split; [| split]].
  - apply (stage2_run parse aggregate inv n state Hne Hlabels).
  - reflexivity.
  - intros responses. rewrite collect_stage2_succeeded. fold responses.
    assert (Hmodels : map s2_model (map (to_stage2 parse) (succeeded responses))
                      = map fst (succeeded responses))
      by now rewrite map_map.
    split; [| split; [| split]].
    + apply Forall_forall. intros r Hin. apply in_map_iff in Hin.
      destruct Hin as [mr [<- _]]. reflexivity.
    + intros m. rewrite Hmodels, in_map_iff. split.
      * intros [[m' p] [Hm Hin]]. simpl in Hm; subst m'.
        exists p. now apply in_succeeded.
      * intros [p Hin]. exists (m, p). split; [reflexivity |].
        now apply in_succeeded.
    + intros Hnd. rewrite Hmodels. now apply succeeded_NoDup.
    + rewrite length_map. apply succeeded_length.
Qed.

(** X7.  The 'content' field of a successful payload is carried verbatim:
    stage 1 records it as the model's response, stage 2 as the model's raw
    ranking text together with its parse, and stage 3 as the response of the
    chairman's result (in an update that assigns the Stage-3 result and
    nothing else). *)
Theorem content_is_carried_verbatim (inv : Invoker) (n : nat)
  (state : CouncilState) :
  (forall m r text,
      In (m, Some r)
         (answer_parallel inv n COUNCIL_MODELS (user_message (user_query state))) ->
      dict_get (lit "content") r = Some text ->
      exists results calls,
        run_from inv n (stage1_node state)
          = (Returned (stage1_update results), calls) /\
        In {| s1_model := m; s1_response := text |} results)
  /\
  (forall labels m r text,
      stage1_results state <> [] ->
      make_labels (length (stage1_results state)) = Some labels ->
      In (m, Some r)
         (answer_parallel inv n COUNCIL_MODELS
            (user_message (stage2_prompt state labels))) ->
      dict_get (lit "content") r = Some text ->
      exists update results calls,
        run_from inv n (stage2_node parse aggregate state)
          = (Returned update, calls) /\
        upd_stage2_results update = Some results /\
        In {| s2_model := m; s2_ranking := text;
              s2_parsed_ranking := parse text |} results)
  /\
  (forall r text,
      stage1_results state <> [] ->
      answer_single inv n CHAIRMAN_MODEL (user_message (stage3_prompt state))
        = Some r ->
      dict_get (lit "content") r = Some text ->
      run_from inv n (stage3_node state) =
      (Returned
         {| upd_stage1_results := None;
            upd_stage2_results := None;
            upd_label_to_model := None;
            upd_stage3_result :=
              Some {| s3_model := CHAIRMAN_MODEL; s3_response := text |};
            upd_metadata := None |},
       [CallSingle CHAIRMAN_MODEL (user_message (stage3_prompt state))])).
Proof.
  split; [| split].
  - intros m r text Hin Hcontent. eexists. eexists. split.
    + apply stage1_run.
    + rewrite collect_stage1_succeeded. apply in_map_iff.
      exists (m, r). split.
      * unfold to_stage1. cbn [fst snd]. now rewrite (text_of_present _ Hcontent).
      * now apply in_succeeded.
  - intros labels m r text Hne Hlabels Hin Hcontent.
    eexists. eexists. eexists. split; [| split].
    + apply (stage2_run parse aggregate inv n state Hne Hlabels).
    + reflexivity.
    + rewrite collect_stage2_succeeded. apply in_map_iff.
      exists (m, r). split.
      * unfold to_stage2. cbn [fst snd]. now rewrite (text_of_present _ Hcontent).
      * now apply in_succeeded.
  - intros r text Hne Hanswer Hcontent. rewrite stage3_run by assumption.
    rewrite Hanswer. unfold chairman_answer.
    now rewrite (text_of_present _ Hcontent).
Qed.

End Stage2Prompt.

(** ** The whole graph *)

Lemma stage1_text_embeds results r :
  In r results ->
  infix (lit "Model: " ++ s1_model r ++ nl ++ lit "Response: " ++ s1_response r)
        (make_stage1_text results).
Proof.
  intros Hin. unfold make_stage1_text. apply infix_join.
  apply (in_map (fun result =>
                   lit "Model: " ++ s1_model result ++ nl
                   ++ lit "Response: " ++ s1_response result)) in Hin.
  exact Hin.
Qed.

Lemma stage2_text_embeds results r :
  In r results ->
  infix (lit "Model: " ++ s2_model r ++ nl ++ lit "Ranking: " ++ s2_ranking r)
        (make_stage2_text results).
Proof.
  intros Hin. unfold make_stage2_text. apply infix_join.
  apply (in_map (fun result =>
                   lit "Model: " ++ s2_model result ++ nl
                   ++ lit "Ranking: " ++ s2_ranking result)) in Hin.
  exact Hin.
Qed.

Lemma succeeded_nonempty_results inv state :
  succeeded (stage1_answer inv state) <> [] ->
  stage1_results (after_stage1 inv state) <> [].
Proof.
  intros H. rewrite after_stage1_results.
  destruct (succeeded (stage1_answer inv state)); [contradiction | discriminate].
Qed.

Ltac unfold_graph_steps :=
  unfold stage3_outcome, stage3_answer, stage3_prompt, after_stage2,
    stage2_answer, stage2_returns, stage2_prompt, after_stage1, merge,
    stage2_skipped, stage1_update, stage3_update;
  cbn [user_query stage1_results stage2_results label_to_model stage3_result
       metadata upd_stage1_results upd_stage2_results upd_label_to_model
       upd_stage3_result upd_metadata or_keep].

Section WholeGraph.

Variable parse : str -> list str.
Variable aggregate : list StageTwoResult -> dict str -> AggregateRanking.

(** X8.  A run of the graph returns a final state whenever stage 1 collected
    at most 1114047 results: after the Stage-1 dispatch alone when no model
    answered, and otherwise after exactly three invocations in the order
    council (query), council (ranking prompt), chairman.  With more results
    the run raises [ValueError] right after the Stage-1 dispatch. *)
Theorem graph_returns_unless_oversized (inv : Invoker) (state : CouncilState) :
  ((N.of_nat (length (succeeded (stage1_answer inv state))) <= 1114047)%N ->
   exists final calls,
     run inv (create_council_graph parse aggregate state)
       = (Returned final, calls) /\
     (succeeded (stage1_answer inv state) = [] ->
      calls = [CallParallel COUNCIL_MODELS (user_message (user_query state))]) /\
     (succeeded (stage1_answer inv state) <> [] ->
      exists ranking_prompt chairman_prompt,
        calls =
          [ CallParallel COUNCIL_MODELS (user_message (user_query state));
            CallParallel COUNCIL_MODELS (user_message ranking_prompt);
            CallSingle CHAIRMAN_MODEL (user_message chairman_prompt) ]))
  /\
  ((1114047 < N.of_nat (length (succeeded (stage1_answer inv state))))%N ->
   run inv (create_council_graph parse aggregate state)
   = (Raised ValueError,
      [CallParallel COUNCIL_MODELS (user_message (user_query state))])).
Proof.
  split.
  - intros Hle.
    destruct (succeeded (stage1_answer inv state)) as [| mr rest] eqn:E.
    + eexists. eexists. split; [now apply graph_run_empty |].
      split; [reflexivity | intros H; now contradiction H].
    + assert (Hsome : succeeded (stage1_answer inv state) <> [])
        by (rewrite E; discriminate).
      rewrite <- E in Hle. rewrite <- after_stage1_length in Hle.
      apply make_labels_Some in Hle.
      eexists. eexists.
      split; [apply (graph_run_full parse aggregate inv state Hsome Hle) |].
      split; [discriminate |].
      intros _. eexists. eexists. reflexivity.
  - intros Hgt. apply graph_run_oversized.
    + intros H. rewrite H in Hgt. cbn [length] in Hgt. lia.
    + apply make_labels_None. now rewrite after_stage1_length.
Qed.

(** X9.  A run of the graph depends on the initial state only through the
    query: two initial states with the same query give the same outcome,
    final state included, and the same invocations, whatever their other
    fields hold. *)
Theorem graph_depends_only_on_the_query (inv : Invoker)
  (state state' : CouncilState) :
  user_query state' = user_query state ->
  run inv (create_council_graph parse aggregate state')
  = run inv (create_council_graph parse aggregate state).
Proof.
  intros Hq.
  assert (Ha : stage1_answer inv state' = stage1_answer inv state)
    by (unfold stage1_answer; now rewrite Hq).
  assert (Hr : stage1_results (after_stage1 inv state')
               = stage1_results (after_stage1 inv state))
    by now rewrite !after_stage1_results, Ha.
  destruct (succeeded (stage1_answer inv state)) as [| mr rest] eqn:E.
  - rewrite (graph_run_empty parse aggregate inv state E).
    rewrite <- Ha in E.
    rewrite (graph_run_empty parse aggregate inv state' E).
    unfold_graph_steps. now rewrite Ha, Hq.
  - assert (Hsome : succeeded (stage1_answer inv state) <> [])
      by (rewrite E; discriminate).
    assert (Hsome' : succeeded (stage1_answer inv state') <> [])
      by now rewrite Ha.
    clear E.
    destruct (make_labels (length (stage1_results (after_stage1 inv state))))
      as [labels |] eqn:El.
    + rewrite (graph_run_full parse aggregate inv state Hsome El).
      rewrite <- Hr in El.
      rewrite (graph_run_full parse aggregate inv state' Hsome' El).
      unfold_graph_steps. now rewrite Ha, Hq.
    + rewrite (graph_run_oversized parse aggregate inv state Hsome El).
      rewrite <- Hr in El.
      rewrite (graph_run_oversized parse aggregate inv state' Hsome' El).
      now rewrite Hq.
Qed.

(** X10.  In the final state of a run that returns, the query is the initial
    one, the Stage-1 results are the successful answers of the Stage-1
    dispatch in its order, and the label map is aligned with them: its
    models are exactly the models that answered, in the same order (a model
    that failed has no label), it has one entry per result, and no key
    occurs twice. *)
Theorem graph_labels_exactly_the_models_that_answered (inv : Invoker)
  (state final : CouncilState) (calls : list Call) :
  run inv (create_council_graph parse aggregate state) = (Returned final, calls) ->
  user_query final = user_query state /\
  stage1_results final = map to_stage1 (succeeded (stage1_answer inv state)) /\
  values (label_to_model final) = map fst (succeeded (stage1_answer inv state)) /\
  length (label_to_model final) = length (stage1_results final) /\
  NoDup (keys (label_to_model final)).
Proof.
  intros Hrun.
  destruct (succeeded (stage1_answer inv state)) as [| mr rest] eqn:E.
  - rewrite (graph_run_empty parse aggregate inv state E) in Hrun.
    inversion Hrun; subst final calls. clear Hrun.
    unfold_graph_steps. rewrite collect_stage1_succeeded, E.
    repeat split; constructor.
  - assert (Hsome : succeeded (stage1_answer inv state) <> [])
      by (rewrite E; discriminate).
    rewrite <- E. clear E.
    destruct (make_labels (length (stage1_results (after_stage1 inv state))))
      as [labels |] eqn:El.
    + rewrite (graph_run_full parse aggregate inv state Hsome El) in Hrun.
      inversion Hrun; subst final calls. clear Hrun.
      apply make_labels_inv in El. destruct El as [_ ->].
      assert (Hres : stage1_results
                       (merge (after_stage2 parse aggregate inv state
                                 (map label_at
                                    (seq 0 (length (stage1_results
                                                      (after_stage1 inv state))))))
                          (stage3_update
                             (stage3_outcome parse aggregate inv state
                                (map label_at
                                   (seq 0 (length (stage1_results
                                                     (after_stage1 inv state))))))))
                     = stage1_results (after_stage1 inv state)) by reflexivity.
      assert (Hmap : label_to_model
                       (merge (after_stage2 parse aggregate inv state
                                 (map label_at
                                    (seq 0 (length (stage1_results
                                                      (after_stage1 inv state))))))
                          (stage3_update
                             (stage3_outcome parse aggregate inv state
                                (map label_at
                                   (seq 0 (length (stage1_results
                                                     (after_stage1 inv state))))))))
                     = combine
                         (map key_at
                            (seq 0 (length (stage1_results (after_stage1 inv state)))))
                         (map s1_model (stage1_results (after_stage1 inv state)))).
      { rewrite <- label_map_shape. reflexivity. }
      rewrite Hres, Hmap.
      assert (Hlens : length (map key_at
                                (seq 0 (length (stage1_results
                                                  (after_stage1 inv state)))))
                      = length (map s1_model
                                  (stage1_results (after_stage1 inv state))))
        by now rewrite !length_map, length_seq.
      split; [reflexivity | split; [apply after_stage1_results | split; [| split]]].
      * unfold values. rewrite (combine_values _ _ Hlens).
        rewrite after_stage1_results. apply to_stage1_models.
      * rewrite length_combine, Hlens, Nat.min_id. apply length_map.
      * unfold keys. rewrite (combine_keys _ _ Hlens).
        apply NoDup_key_at, seq_NoDup.
    + rewrite (graph_run_oversized parse aggregate inv state Hsome El) in Hrun.
      discriminate.
Qed.

End WholeGraph.

Section FinalState.

Variable parse : str -> list str.
Variable aggregate : list StageTwoResult -> dict str -> AggregateRanking.

(** X11.  The final state of a run that returns has one of two shapes.
    Either stage 1 collected nothing: then there is no Stage-2 result, the
    label map is empty, the metadata is exactly the marker
    "error": "No stage 1 results", the Stage-3 result is the "error"
    sentinel, and one invocation was made.  Or stage 1 collected something:
    then the metadata holds exactly the label map of the state and the
    aggregate ranking of the state's Stage-2 results over that map, the
    Stage-3 result is tagged with the chairman, and three invocations were
    made. *)
Theorem graph_final_state_is_consistent (inv : Invoker)
  (state final : CouncilState) (calls : list Call) :
  run inv (create_council_graph parse aggregate state) = (Returned final, calls) ->
  (stage1_results final = [] /\
   stage2_results final = [] /\
   label_to_model final = [] /\
   metadata final = [ (lit "error", MetaText (lit "No stage 1 results")) ] /\
   stage3_result final =
     {| s3_model := lit "error";
        s3_response := lit "No responses to synthesize." |} /\
   length calls = 1)
  \/
  (stage1_results final <> [] /\
   metadata final =
     [ (lit "label_to_model", MetaLabels (label_to_model final));
       (lit "aggregate_rankings",
        MetaAggregate (aggregate (stage2_results final) (label_to_model final))) ] /\
   s3_model (stage3_result final) = CHAIRMAN_MODEL /\
   length calls = 3).
Proof.
  intros Hrun.
  destruct (succeeded (stage1_answer inv state)) as [| mr rest] eqn:E.
  - left. rewrite (graph_run_empty parse aggregate inv state E) in Hrun.
    inversion Hrun; subst final calls. clear Hrun.
    unfold_graph_steps. rewrite collect_stage1_succeeded, E.
    repeat split.
  - right.
    assert (Hsome : succeeded (stage1_answer inv state) <> [])
      by (rewrite E; discriminate).
    clear E.
    destruct (make_labels (length (stage1_results (after_stage1 inv state))))
      as [labels |] eqn:El.
    + rewrite (graph_run_full parse aggregate inv state Hsome El) in Hrun.
      inversion Hrun; subst final calls. clear Hrun.
      split; [| split; [| split]].
      * apply (succeeded_nonempty_results inv state Hsome).
      * reflexivity.
      * unfold stage3_outcome.
        cbn [merge stage3_result stage3_update upd_stage3_result or_keep].
        now destruct (stage3_answer parse aggregate inv state labels).
      * reflexivity.
    + rewrite (graph_run_oversized parse aggregate inv state Hsome El) in Hrun.
      discriminate.
Qed.

(** X12.  With a dispatcher that answers for exactly the configured council,
    a run of the graph always returns, stage 1 collects at most four
    results, and the keys of the final label map are the first of
    "Response A", "Response B", "Response C", "Response D", one per result:
    the ceiling of the labelling is out of reach. *)
Theorem graph_with_the_council_labels_with_letters (inv : Invoker)
  (state : CouncilState) :
  Permutation (keys (stage1_answer inv state)) COUNCIL_MODELS ->
  exists final calls,
    run inv (create_council_graph parse aggregate state)
      = (Returned final, calls) /\
    length (stage1_results final) <= 4 /\
    keys (label_to_model final)
    = firstn (length (stage1_results final)) COUNCIL_KEYS.
Proof.
  intros Hperm.
  assert (Hfour : length (succeeded (stage1_answer inv state)) <= 4).
  { etransitivity; [apply succeeded_length |].
    apply Permutation_length in Hperm. unfold keys in Hperm.
    rewrite length_map in Hperm. rewrite Hperm. apply Nat.le_refl. }
  destruct (succeeded (stage1_answer inv state)) as [| mr rest] eqn:E.
  - eexists. eexists. split; [now apply graph_run_empty |].
    unfold_graph_steps. rewrite collect_stage1_succeeded, E.
    split; [cbn [map length]; lia | reflexivity].
  - assert (Hsome : succeeded (stage1_answer inv state) <> [])
      by (rewrite E; discriminate).
    rewrite <- E in Hfour. clear E.
    rewrite <- after_stage1_length in Hfour.
    assert (Hlabels :
              make_labels (length (stage1_results (after_stage1 inv state)))
              = Some (map label_at
                        (seq 0 (length (stage1_results (after_stage1 inv state))))))
      by (apply make_labels_Some; lia).
    eexists. eexists.
    split; [apply (graph_run_full parse aggregate inv state Hsome Hlabels) |].
    unfold after_stage2, stage2_returns.
    cbn [merge stage1_results label_to_model stage3_update upd_stage1_results
         upd_label_to_model or_keep].
    split; [exact Hfour |].
    rewrite label_map_shape. unfold keys.
    rewrite combine_keys by now rewrite !length_map, length_seq.
    destruct (length (stage1_results (after_stage1 inv state)))
      as [| [| [| [| [| k]]]]]; try reflexivity.
    lia.
Qed.

(** X13.  In a run of the graph where some model answered stage 1 (and at
    most 1114047 did), the text sent to the chairman contains the query, the
    "Model: ... Response: ..." pair of every model that answered the
    Stage-1 dispatch of this run, and the "Model: ... Ranking: ..." pair,
    with the raw text, of every model that answered the ranking prompt of
    this run. *)
Theorem graph_chairman_prompt_embeds_the_run (inv : Invoker)
  (state : CouncilState) :
  succeeded (stage1_answer inv state) <> [] ->
  (N.of_nat (length (succeeded (stage1_answer inv state))) <= 1114047)%N ->
  exists final ranking_prompt chairman_prompt,
    run inv (create_council_graph parse aggregate state) =
      (Returned final,
       [ CallParallel COUNCIL_MODELS (user_message (user_query state));
         CallParallel COUNCIL_MODELS (user_message ranking_prompt);
         CallSingle CHAIRMAN_MODEL (user_message chairman_prompt) ]) /\
    infix (user_query state) chairman_prompt /\
    (forall m r,
        In (m, Some r) (stage1_answer inv state) ->
        infix (lit "Model: " ++ m ++ nl ++ lit "Response: "
               ++ get_default r (lit "content") []) chairman_prompt) /\
    (forall m r,
        In (m, Some r)
           (answer_parallel inv 1 COUNCIL_MODELS (user_message ranking_prompt)) ->
        infix (lit "Model: " ++ m ++ nl ++ lit "Ranking: "
               ++ get_default r (lit "content") []) chairman_prompt).
Proof.
  intros Hsome Hle. rewrite <- after_stage1_length in Hle.
  apply make_labels_Some in Hle.
  set (labels := map label_at
                   (seq 0 (length (stage1_results (after_stage1 inv state))))) in *.
  eexists. eexists. eexists.
  split; [apply (graph_run_full parse aggregate inv state Hsome Hle) |].
  unfold stage3_prompt.
  split; [apply chairman_prompt_embeds_query | split].
  - intros m r Hin.
    eapply infix_trans; [| apply chairman_prompt_embeds_stage1].
    apply (stage1_text_embeds _ (to_stage1 (m, r))).
    change (stage1_results (after_stage2 parse aggregate inv state labels))
      with (stage1_results (after_stage1 inv state)).
    rewrite after_stage1_results. apply in_map. now apply in_succeeded.
  - intros m r Hin.
    eapply infix_trans; [| apply chairman_prompt_embeds_stage2].
    apply (stage2_text_embeds _ (to_stage2 parse (m, r))).
    change (stage2_results (after_stage2 parse aggregate inv state labels))
      with (collect_stage2 parse (stage2_answer inv state labels)).
    rewrite collect_stage2_succeeded. apply in_map. now apply in_succeeded.
Qed.

End FinalState.

(** ** Stage 2 on what stage 1 hands over *)

Lemma collected_from_council_bound state :
  collected_from_council state ->
  (N.of_nat (length (stage1_results state)) <= 1114047)%N.
Proof.
  intros [responses [Hnd [Hincl Hres]]].
  rewrite Hres, collect_stage1_succeeded, length_map.
  pose proof (succeeded_length responses) as H1.
  pose proof (NoDup_incl_length Hnd Hincl) as H2.
  unfold keys in H2. rewrite length_map in H2.
  change (length COUNCIL_MODELS) with 4 in H2. lia.
Qed.

Lemma after_stage1_collected inv state :
  NoDup (keys (stage1_answer inv state)) ->
  incl (keys (stage1_answer inv state)) COUNCIL_MODELS ->
  collected_from_council (after_stage1 inv state).
Proof.
  intros Hnd Hincl. exists (stage1_answer inv state).
  split; [exact Hnd | split; [exact Hincl | reflexivity]].
Qed.

Section Stage2InTheGraph.

Variable parse : str -> list str.
Variable aggregate : list StageTwoResult -> dict str -> AggregateRanking.

(** C10.  On every state with a non-empty Stage-1 list that stage 1 collected
    from a dispatch over the council, stage 2 returns, never with the error
    marker: it dispatches the ranking prompt once and returns one result per
    successful answer (none when every invocation fails), the label map, and
    a metadata dict holding exactly the label map and the aggregate ranking
    computed from the returned results, with no "error" entry.  So in a run
    of the graph in which some council model answered stage 1, the final
    metadata has no "error" entry and holds the label map and the aggregate
    ranking of the final state, also when every ranking invocation fails. *)
Theorem stage2_never_returns_error_marker (inv : Invoker) :
  (forall n state,
      stage1_results state <> [] ->
      collected_from_council state ->
      exists labels responses results l2m md,
        labels = map label_at (seq 0 (length (stage1_results state))) /\
        responses =
          answer_parallel inv n COUNCIL_MODELS
            (user_message (stage2_prompt state labels)) /\
        results = map (to_stage2 parse) (succeeded responses) /\
        l2m = combine (map key_at (seq 0 (length (stage1_results state))))
                      (map s1_model (stage1_results state)) /\
        md = [ (lit "label_to_model", MetaLabels l2m);
               (lit "aggregate_rankings",
                MetaAggregate (aggregate results l2m)) ] /\
        run_from inv n (stage2_node parse aggregate state) =
          (Returned
             {| upd_stage1_results := None;
                upd_stage2_results := Some results;
                upd_label_to_model := Some l2m;
                upd_stage3_result := None;
                upd_metadata := Some md |},
           [CallParallel COUNCIL_MODELS
              (user_message (stage2_prompt state labels))]) /\
        dict_get (lit "error") md = None /\
        dict_get (lit "label_to_model") md = Some (MetaLabels l2m) /\
        dict_get (lit "aggregate_rankings") md
          = Some (MetaAggregate (aggregate results l2m)) /\
        ((forall item, In item responses -> snd item = None) -> results = []))
  /\
  (forall state,
      NoDup (keys (stage1_answer inv state)) ->
      incl (keys (stage1_answer inv state)) COUNCIL_MODELS ->
      succeeded (stage1_answer inv state) <> [] ->
      exists final ranking_prompt chairman_prompt,
        run inv (create_council_graph parse aggregate state) =
          (Returned final,
           [ CallParallel COUNCIL_MODELS (user_message (user_query state));
             CallParallel COUNCIL_MODELS (user_message ranking_prompt);
             CallSingle CHAIRMAN_MODEL (user_message chairman_prompt) ]) /\
        stage1_results final <> [] /\
        dict_get (lit "error") (metadata final) = None /\
        dict_get (lit "label_to_model") (metadata final)
          = Some (MetaLabels (label_to_model final)) /\
        dict_get (lit "aggregate_rankings") (metadata final)
          = Some (MetaAggregate
                    (aggregate (stage2_results final) (label_to_model final))) /\
        ((forall item,
             In item (answer_parallel inv 1 COUNCIL_MODELS
                        (user_message ranking_prompt)) ->
             snd item = None) ->
         stage2_results final = [])).
Proof.
  split.
  - intros n state Hne Hfrom.
    pose proof (collected_from_council_bound Hfrom) as Hlen.
    pose proof (make_labels_Some _ Hlen) as Hlabels.
    do 5 eexists.
    repeat (split; [reflexivity |]).
    split; [| split; [| split; [| split]]].
    + rewrite (stage2_run parse aggregate inv n state Hne Hlabels).
      unfold stage2_returns.
      rewrite collect_stage2_succeeded, label_map_shape. reflexivity.
    + reflexivity.
    + reflexivity.
    + reflexivity.
    + intros Hall. now rewrite succeeded_none.
  - intros state Hnd Hincl Hsome.
    pose proof (collected_from_council_bound
                  (after_stage1_collected inv state Hnd Hincl)) as Hlen.
    pose proof (make_labels_Some _ Hlen) as Hlabels.
    set (labels := map label_at
                     (seq 0 (length (stage1_results (after_stage1 inv state)))))
      in *.
    eexists. eexists. eexists.
    split; [apply (graph_run_full parse aggregate inv state Hsome Hlabels) |].
    split; [apply (succeeded_nonempty_results inv state Hsome) |].
    split; [reflexivity | split; [reflexivity | split; [reflexivity |]]].
    intros Hall.
    change (stage2_results
              (merge (after_stage2 parse aggregate inv state labels)
                 (stage3_update
                    (stage3_outcome parse aggregate inv state labels))))
      with (collect_stage2 parse (stage2_answer inv state labels)).
    rewrite collect_stage2_succeeded.
    now rewrite (succeeded_none (stage2_answer inv state labels) Hall).
Qed.

End Stage2InTheGraph.

(** * Concrete runs of the further properties *)

Lemma stage2_raises_exactly_when_oversized_witness :
  (1114047 < N.of_nat (length (stage1_results oversized_state)))%N /\
  run_from all_fail 0
    (stage2_node Utils.parse_ranking_from_text Utils.average_rank
       oversized_state)
  = (Raised ValueError, []).
Proof.
  assert (H : (1114047 < N.of_nat (length (stage1_results oversized_state)))%N).
  { unfold oversized_state, state_with. cbn [stage1_results].
    rewrite repeat_length, N2Nat.id. reflexivity. }
  split; [exact H |].
  apply (proj1 (stage2_raises_exactly_when_oversized
                  Utils.parse_ranking_from_text Utils.average_rank
                  all_fail 0 oversized_state) H).
Defined.

Lemma labels_are_distinct_characters_witness :
  make_labels 3 = Some [lit "A"; lit "B"; lit "C"] /\
  NoDup [lit "A"; lit "B"; lit "C"].
Proof.
  assert (H : make_labels 3 = Some [lit "A"; lit "B"; lit "C"])
    by (vm_compute; reflexivity).
  split; [exact H |].
  apply (proj2 (labels_are_distinct_characters 3) _ H).
Defined.

Lemma stage2_label_map_has_no_collision_witness :
  stage1_results (state_with [answer_one; answer_two]) <> [] /\
  (N.of_nat (length (stage1_results (state_with [answer_one; answer_two])))
   <= 1114047)%N /\
  exists update calls l2m,
    run_from all_fail 0
      (stage2_node Utils.parse_ranking_from_text Utils.average_rank
         (state_with [answer_one; answer_two]))
      = (Returned update, calls) /\
    upd_label_to_model update = Some l2m /\
    length l2m = 2 /\
    NoDup (keys l2m).
Proof.
  assert (H1 : stage1_results (state_with [answer_one; answer_two]) <> [])
    by discriminate.
  assert (H2 : (N.of_nat (length (stage1_results
                                    (state_with [answer_one; answer_two])))
                <= 1114047)%N) by (simpl; lia).
  split; [exact H1 | split; [exact H2 |]].
  destruct (stage2_label_map_has_no_collision Utils.parse_ranking_from_text
              Utils.average_rank all_fail 0
              (state_with [answer_one; answer_two]) H1 H2)
    as [update [calls [l2m [Hrun [Hmap [Hlen [Hnd _]]]]]]].
  exists update, calls, l2m.
  split; [exact Hrun | split; [exact Hmap | split; [exact Hlen | exact Hnd]]].
Defined.

Lemma stage2_prompt_embeds_query_and_responses_witness :
  stage1_results (state_with [answer_one; answer_two]) <> [] /\
  (N.of_nat (length (stage1_results (state_with [answer_one; answer_two])))
   <= 1114047)%N /\
  exists prompt,
    snd (run_from all_fail 0
           (stage2_node Utils.parse_ranking_from_text Utils.average_rank
              (state_with [answer_one; answer_two])))
    = [CallParallel COUNCIL_MODELS
         [ {| role := lit "user"; content := prompt |} ]] /\
    infix (lit "Response " ++ lit "B" ++ lit ":" ++ nl ++ lit "second answer")
          prompt.
Proof.
  assert (H1 : stage1_results (state_with [answer_one; answer_two]) <> [])
    by discriminate.
  assert (H2 : (N.of_nat (length (stage1_results
                                    (state_with [answer_one; answer_two])))
                <= 1114047)%N) by (simpl; lia).
  split; [exact H1 | split; [exact H2 |]].
  destruct (stage2_prompt_embeds_query_and_responses
              Utils.parse_ranking_from_text Utils.average_rank all_fail 0
              (state_with [answer_one; answer_two]) H1 H2)
    as [prompt [Hcalls [_ [Hbodies _]]]].
  exists prompt. split; [exact Hcalls |].
  apply (Hbodies 1 answer_two). reflexivity.
Defined.

Lemma stage2_calls_do_not_depend_on_models_witness :
  user_query renamed_state = user_query (state_with [answer_one; answer_two]) /\
  map s1_response (stage1_results renamed_state)
  = map s1_response (stage1_results (state_with [answer_one; answer_two])) /\
  snd (run_from all_fail 0
         (stage2_node Utils.parse_ranking_from_text Utils.average_rank
            renamed_state))
  = snd (run_from all_fail 0
           (stage2_node Utils.parse_ranking_from_text Utils.average_rank
              (state_with [answer_one; answer_two]))).
Proof.
  split; [reflexivity | split; [reflexivity |]].
  apply (stage2_calls_do_not_depend_on_models Utils.parse_ranking_from_text
           Utils.average_rank all_fail 0
           (state_with [answer_one; answer_two]) renamed_state);
    reflexivity.
Defined.

Lemma stage2_results_are_the_successful_rankings_witness :
  stage1_results (state_with [answer_one]) <> [] /\
  (N.of_nat (length (stage1_results (state_with [answer_one]))) <= 1114047)%N /\
  exists update calls results,
    run_from all_answer 0
      (stage2_node Utils.parse_ranking_from_text Utils.average_rank
         (state_with [answer_one]))
      = (Returned update, calls) /\
    upd_stage2_results update = Some results /\
    Forall (fun r => s2_parsed_ranking r
                     = Utils.parse_ranking_from_text (s2_ranking r)) results.
Proof.
  assert (H1 : stage1_results (state_with [answer_one]) <> []) by discriminate.
  assert (H2 : (N.of_nat (length (stage1_results (state_with [answer_one])))
                <= 1114047)%N) by (simpl; lia).
  split; [exact H1 | split; [exact H2 |]].
  destruct (stage2_results_are_the_successful_rankings
              Utils.parse_ranking_from_text Utils.average_rank all_answer 0
              (state_with [answer_one]) H1 H2)
    as [labels [update [calls [results [_ [Hrun [Hres [Hparsed _]]]]]]]].
  exists update, calls, results.
  split; [exact Hrun | split; [exact Hres | exact Hparsed]].
Defined.

Lemma content_is_carried_verbatim_witness :
  stage1_results deliberated_state <> [] /\
  answer_single all_answer 0 CHAIRMAN_MODEL
    (user_message (stage3_prompt deliberated_state))
  = Some [(lit "content", lit "synthesis")] /\
  dict_get (lit "content") [(lit "content", lit "synthesis")]
  = Some (lit "synthesis") /\
  run_from all_answer 0 (stage3_node deliberated_state)
  = (Returned
       {| upd_stage1_results := None;
          upd_stage2_results := None;
          upd_label_to_model := None;
          upd_stage3_result :=
            Some {| s3_model := CHAIRMAN_MODEL;
                    s3_response := lit "synthesis" |};
          upd_metadata := None |},
     [CallSingle CHAIRMAN_MODEL
        (user_message (stage3_prompt deliberated_state))]).
Proof.
  assert (H1 : stage1_results deliberated_state <> []) by discriminate.
  assert (H2 : dict_get (lit "content") [(lit "content", lit "synthesis")]
               = Some (lit "synthesis")) by (vm_compute; reflexivity).
  split; [exact H1 | split; [reflexivity | split; [exact H2 |]]].
  apply (proj2 (proj2 (content_is_carried_verbatim
                         Utils.parse_ranking_from_text Utils.average_rank
                         all_answer 0 deliberated_state))
           [(lit "content", lit "synthesis")] (lit "synthesis") H1 eq_refl H2).
Defined.

Lemma graph_returns_unless_oversized_witness :
  (N.of_nat (length (succeeded (stage1_answer all_answer (state_with []))))
   <= 1114047)%N /\
  exists final calls,
    run all_answer
      (create_council_graph Utils.parse_ranking_from_text Utils.average_rank
         (state_with []))
    = (Returned final, calls) /\
    length calls = 3.
Proof.
  assert (H : (N.of_nat (length (succeeded (stage1_answer all_answer
                                              (state_with []))))
               <= 1114047)%N) by (vm_compute; discriminate).
  split; [exact H |].
  destruct (proj1 (graph_returns_unless_oversized
                     Utils.parse_ranking_from_text Utils.average_rank
                     all_answer (state_with [])) H)
    as [final [calls [Hrun [_ Hthree]]]].
  exists final, calls. split; [exact Hrun |].
  destruct Hthree as [rp [cp ->]]; [discriminate | reflexivity].
Defined.

Lemma graph_depends_only_on_the_query_witness :
  user_query stale_state = user_query (state_with []) /\
  run all_answer
    (create_council_graph Utils.parse_ranking_from_text Utils.average_rank
       stale_state)
  = run all_answer
      (create_council_graph Utils.parse_ranking_from_text Utils.average_rank
         (state_with [])).
Proof.
  split; [reflexivity |].
  apply (graph_depends_only_on_the_query Utils.parse_ranking_from_text
           Utils.average_rank all_answer (state_with []) stale_state).
  reflexivity.
Defined.

Lemma answered_run :
  run all_answer
    (create_council_graph Utils.parse_ranking_from_text Utils.average_rank
       (state_with []))
  = (Returned answered_final, answered_calls).
Proof. vm_compute. reflexivity. Qed.

Lemma graph_labels_exactly_the_models_that_answered_witness :
  run all_answer
    (create_council_graph Utils.parse_ranking_from_text Utils.average_rank
       (state_with []))
  = (Returned answered_final, answered_calls) /\
  values (label_to_model answered_final)
  = map fst (succeeded (stage1_answer all_answer (state_with []))) /\
  length (label_to_model answered_final)
  = length (stage1_results answered_final).
Proof.
  split; [exact answered_run |].
  destruct (graph_labels_exactly_the_models_that_answered
              Utils.parse_ranking_from_text Utils.average_rank all_answer
              (state_with []) answered_run)
    as [_ [_ [Hvalues [Hlen _]]]].
  split; [exact Hvalues | exact Hlen].
Defined.

Lemma graph_final_state_is_consistent_witness :
  run all_answer
    (create_council_graph Utils.parse_ranking_from_text Utils.average_rank
       (state_with []))
  = (Returned answered_final, answered_calls) /\
  (stage1_results answered_final = [] /\ length answered_calls = 1
   \/ stage1_results answered_final <> [] /\ length answered_calls = 3).
Proof.
  split; [exact answered_run |].
  destruct (graph_final_state_is_consistent
              Utils.parse_ranking_from_text Utils.average_rank all_answer
              (state_with []) answered_run)
    as [[H1 [_ [_ [_ [_ Hc]]]]] | [H1 [_ [_ Hc]]]].
  - left. split; [exact H1 | exact Hc].
  - right. split; [exact H1 | exact Hc].
Defined.

Lemma graph_with_the_council_labels_with_letters_witness :
  Permutation (keys (stage1_answer all_answer (state_with []))) COUNCIL_MODELS /\
  exists final calls,
    run all_answer
      (create_council_graph Utils.parse_ranking_from_text Utils.average_rank
         (state_with []))
    = (Returned final, calls) /\
    length (stage1_results final) <= 4 /\
    keys (label_to_model final)
    = firstn (length (stage1_results final)) COUNCIL_KEYS.
Proof.
  assert (H : Permutation (keys (stage1_answer all_answer (state_with [])))
                          COUNCIL_MODELS)
    by exact (Permutation_refl COUNCIL_MODELS).
  split; [exact H |].
  apply (graph_with_the_council_labels_with_letters
           Utils.parse_ranking_from_text Utils.average_rank all_answer
           (state_with []) H).
Defined.

Lemma graph_chairman_prompt_embeds_the_run_witness :
  succeeded (stage1_answer all_answer (state_with [])) <> [] /\
  (N.of_nat (length (succeeded (stage1_answer all_answer (state_with []))))
   <= 1114047)%N /\
  exists final ranking_prompt chairman_prompt,
    run all_answer
      (create_council_graph Utils.parse_ranking_from_text Utils.average_rank
         (state_with []))
    = (Returned final,
       [ CallParallel COUNCIL_MODELS (user_message (lit "Q"));
         CallParallel COUNCIL_MODELS (user_message ranking_prompt);
         CallSingle CHAIRMAN_MODEL (user_message chairman_prompt) ]) /\
    infix (lit "Q") chairman_prompt.
Proof.
  assert (H1 : succeeded (stage1_answer all_answer (state_with [])) <> [])
    by (vm_compute; discriminate).
  assert (H2 : (N.of_nat (length (succeeded (stage1_answer all_answer
                                               (state_with []))))
                <= 1114047)%N) by (vm_compute; discriminate).
  split; [exact H1 | split; [exact H2 |]].
  destruct (graph_chairman_prompt_embeds_the_run
              Utils.parse_ranking_from_text Utils.average_rank all_answer
              (state_with []) H1 H2)
    as [final [rp [cp [Hrun [Hq _]]]]].
  exists final, rp, cp. split; [exact Hrun | exact Hq].
Defined.

Lemma stage2_never_returns_error_marker_witness :
  stage1_results (after_stage1 all_answer (state_with [])) <> [] /\
  collected_from_council (after_stage1 all_answer (state_with [])) /\
  exists update calls md,
    run_from all_fail 1
      (stage2_node Utils.parse_ranking_from_text Utils.average_rank
         (after_stage1 all_answer (state_with [])))
    = (Returned update, calls) /\
    upd_stage2_results update = Some [] /\
    upd_metadata update = Some md /\
    dict_get (lit "error") md = None /\
    length calls = 1.
Proof.
  assert (H1 : stage1_results (after_stage1 all_answer (state_with [])) <> [])
    by (vm_compute; discriminate).
  assert (H2 : collected_from_council (after_stage1 all_answer (state_with []))).
  { exists (stage1_answer all_answer (state_with [])).
    split; [| split; [| reflexivity]].
    - change (keys (stage1_answer all_answer (state_with [])))
        with COUNCIL_MODELS.
      repeat constructor; simpl; intuition discriminate.
    - intros m Hm. exact Hm. }
  split; [exact H1 | split; [exact H2 |]].
  destruct (proj1 (stage2_never_returns_error_marker
                     Utils.parse_ranking_from_text Utils.average_rank all_fail)
              1 (after_stage1 all_answer (state_with [])) H1 H2)
    as [labels [responses [results [l2m [md
         [_ [Hresp [_ [_ [_ [Hrun [Herr [_ [_ Hnone]]]]]]]]]]]]]].
  exists {| upd_stage1_results := None;
            upd_stage2_results := Some results;
            upd_label_to_model := Some l2m;
            upd_stage3_result := None;
            upd_metadata := Some md |}.
  eexists. exists md.
  split; [exact Hrun | split; [| split; [reflexivity | split; [exact Herr | reflexivity]]]].
  cbn [upd_stage2_results]. f_equal. apply Hnone.
  intros item Hin. rewrite Hresp in Hin. simpl in Hin.
  destruct Hin as [<- | [<- | [<- | [<- | []]]]]; reflexivity.
Defined.
